(** * ColorManager: a shallow embedding of src/browser/ColorManager.ts

    The terminal colour manager of xterm.js: the default 256 colour palette,
    colour parsing through a 1x1 canvas used as a validation oracle, themes,
    the restore snapshot and the contrast cache. *)

From Stdlib Require Import ZArith QArith Qround List String Ascii Bool Lia.
Import ListNotations.
Open Scope Z_scope.

(* ------------------------------------------------------------------------- *)
(** ** Colours and the colour arithmetic library (common/Color) *)

(** [IColor]: a CSS string and a packed 0xRRGGBBAA integer. *)
Record Color := mkColor { css : string; rgba : Z }.

(** Modelled from the spec: [channels.toRgba] of common/Color (not in src/),
    "RGBA packing", a packed integer 0xRRGGBBAA; the shifts and ors act on
    32-bit integers and [>>> 0] makes the result unsigned. *)
Definition toRgba (r g b a : Z) : Z :=
  Z.land (Z.lor (Z.lor (Z.lor (Z.shiftl r 24) (Z.shiftl g 16)) (Z.shiftl b 8)) a)
         (Z.ones 32).

(** Hexadecimal digits, lower case, as [Number.prototype.toString(16)]. *)
Definition hex_digit (d : Z) : ascii :=
  match d with
  | 0 => "0" | 1 => "1" | 2 => "2" | 3 => "3" | 4 => "4" | 5 => "5"
  | 6 => "6" | 7 => "7" | 8 => "8" | 9 => "9" | 10 => "a" | 11 => "b"
  | 12 => "c" | 13 => "d" | 14 => "e" | _ => "f"
  end%char.

Fixpoint hex_digits (fuel : nat) (n : Z) (acc : string) : string :=
  match fuel with
  | O => acc
  | S f =>
      let acc' := String (hex_digit (n mod 16)) acc in
      if n <? 16 then acc' else hex_digits f (n / 16) acc'
  end.

(** Modelled from the spec: [toPaddedHex] of common/Color (not in src/), two
    hexadecimal digits per channel. *)
Definition toPaddedHex (n : Z) : string :=
  let s := hex_digits 8 n EmptyString in
  if (String.length s <? 2)%nat then String "0" s else s.

(** Modelled from the spec: [channels.toCss] of common/Color (not in src/),
    "CSS string formatting": [#rrggbb], or [#rrggbbaa] with an alpha. *)
Definition toCss (r g b : Z) (a : option Z) : string :=
  match a with
  | None => "#" ++ toPaddedHex r ++ toPaddedHex g ++ toPaddedHex b
  | Some a => "#" ++ toPaddedHex r ++ toPaddedHex g ++ toPaddedHex b ++ toPaddedHex a
  end.

(** [parseInt(s, 16)] on the hexadecimal digits of [s] (stops at the first
    non-digit). *)
Definition hex_value (c : ascii) : option Z :=
  let n := Z.of_nat (nat_of_ascii c) in
  if (48 <=? n) && (n <=? 57) then Some (n - 48)
  else if (97 <=? n) && (n <=? 102) then Some (n - 87)
  else if (65 <=? n) && (n <=? 70) then Some (n - 55)
  else None.

Fixpoint parse_hex (s : string) (acc : Z) : Z :=
  match s with
  | EmptyString => acc
  | String c s' =>
      match hex_value c with
      | Some d => parse_hex s' (acc * 16 + d)
      | None => acc
      end
  end.

(** Modelled from the spec: [css.toColor] of common/Color (not in src/): the
    colour of a [#rrggbb] literal, fully opaque. *)
Definition css_toColor (s : string) : Color :=
  {| css := s;
     rgba := Z.land (Z.lor (Z.shiftl (parse_hex (substring 1 (String.length s - 1) s) 0) 8)
                           255) (Z.ones 32) |}.

(** The channels of a packed colour ([rgba.toChannels]). *)
Definition chan_r (c : Color) : Z := Z.land (Z.shiftr (rgba c) 24) 255.
Definition chan_g (c : Color) : Z := Z.land (Z.shiftr (rgba c) 16) 255.
Definition chan_b (c : Color) : Z := Z.land (Z.shiftr (rgba c) 8) 255.
Definition chan_a (c : Color) : Z := Z.land (rgba c) 255.

(** [Math.round] on an exact rational: the nearest integer, halves upward. *)
Definition js_round (q : Q) : Z := Qfloor (q + (1 # 2)).

(** Modelled from the spec: [color.isOpaque] of common/Color (not in src/). *)
Definition isOpaque (c : Color) : bool := chan_a c =? 255.

(** Modelled from the spec: [color.opacity] of common/Color (not in src/),
    "opacity adjustment": the same channels with alpha [round(opacity * 255)]. *)
Definition opacity (c : Color) (o : Q) : Color :=
  let a := js_round (o * 255) in
  {| css := toCss (chan_r c) (chan_g c) (chan_b c) (Some a);
     rgba := toRgba (chan_r c) (chan_g c) (chan_b c) a |}.

(** Modelled from the spec: [color.blend] of common/Color (not in src/),
    "alpha blending" of [fg] over the opaque [bg]. *)
Definition blend (bg fg : Color) : Color :=
  let a := chan_a fg in
  if a =? 255 then {| css := css fg; rgba := rgba fg |}
  else
    let mix (cb cf : Z) := cb + js_round ((inject_Z (cf - cb)) * (a # 255)) in
    let r := mix (chan_r bg) (chan_r fg) in
    let g := mix (chan_g bg) (chan_g fg) in
    let b := mix (chan_b bg) (chan_b fg) in
    {| css := toCss r g b None; rgba := toRgba r g b 255 |}.

(* ------------------------------------------------------------------------- *)
(** ** Defaults *)

Definition DEFAULT_FOREGROUND : Color := css_toColor "#ffffff".
Definition DEFAULT_BACKGROUND : Color := css_toColor "#000000".
Definition DEFAULT_CURSOR : Color := css_toColor "#ffffff".
Definition DEFAULT_CURSOR_ACCENT : Color := css_toColor "#000000".
Definition DEFAULT_SELECTION : Color :=
  {| css := "rgba(255, 255, 255, 0.3)"; rgba := 0xFFFFFF4D |}.

(** The step table [v] of the colour cube. *)
Definition v : list Z := [0x00; 0x5f; 0x87; 0xaf; 0xd7; 0xff].

(** [v[k]]: an index past the end reads [undefined]; the cube never does. *)
Definition v_at (k : Z) : Z := nth (Z.to_nat k) v 0.

(** The [i]-th colour of the cube loop, [0 <= i < 216]. For a non-negative
    integer [i], [(i / 36) % 6 | 0] is [(i div 36) mod 6]. *)
Definition cube_color (i : Z) : Color :=
  let r := v_at ((i / 36) mod 6) in
  let g := v_at ((i / 6) mod 6) in
  let b := v_at (i mod 6) in
  {| css := toCss r g b None; rgba := toRgba r g b 255 |}.

(** The [i]-th grey, [0 <= i < 24]. *)
Definition grey_color (i : Z) : Color :=
  let c := 8 + i * 10 in
  {| css := toCss c c c None; rgba := toRgba c c c 255 |}.

Definition DEFAULT_ANSI_COLORS : list Color :=
  [ (* dark: *)
    css_toColor "#2e3436"; css_toColor "#cc0000"; css_toColor "#4e9a06";
    css_toColor "#c4a000"; css_toColor "#3465a4"; css_toColor "#75507b";
    css_toColor "#06989a"; css_toColor "#d3d7cf";
    (* bright: *)
    css_toColor "#555753"; css_toColor "#ef2929"; css_toColor "#8ae234";
    css_toColor "#fce94f"; css_toColor "#729fcf"; css_toColor "#ad7fa8";
    css_toColor "#34e2e2"; css_toColor "#eeeeec" ]
  ++ map (fun i => cube_color (Z.of_nat i)) (seq 0 216)
  ++ map (fun i => grey_color (Z.of_nat i)) (seq 0 24).

(** [DEFAULT_ANSI_COLORS[i]]: [undefined] past the end. *)
Definition default_ansi (i : Z) : option Color :=
  if i <? 0 then None else nth_error DEFAULT_ANSI_COLORS (Z.to_nat i).

(* ------------------------------------------------------------------------- *)
(** ** JavaScript string and number built-ins used by [_parseColor] *)

(** [s.substring(start, end)]: both ends clamped to [0, length], swapped when
    [start > end]. *)
Definition js_substring (s : string) (start end_ : Z) : string :=
  let len := Z.of_nat (String.length s) in
  let a := Z.max 0 (Z.min start len) in
  let b := Z.max 0 (Z.min end_ len) in
  substring (Z.to_nat (Z.min a b)) (Z.to_nat (Z.max a b - Z.min a b)) s.

(** [s.split(sep)] for a one-character separator. *)
Fixpoint js_split_aux (sep : ascii) (s : string) (cur : string) : list string :=
  match s with
  | EmptyString => [cur]
  | String c s' =>
      if Ascii.eqb c sep then cur :: js_split_aux sep s' EmptyString
      else js_split_aux sep s' (cur ++ String c EmptyString)
  end.

Definition js_split (sep : ascii) (s : string) : list string :=
  js_split_aux sep s EmptyString.

(** White space and line terminators trimmed by [Number(string)] (the ASCII
    ones; the colour engine emits no others). *)
Definition is_js_space (c : ascii) : bool :=
  let n := nat_of_ascii c in
  (n =? 32)%nat || (n =? 9)%nat || (n =? 10)%nat || (n =? 11)%nat
  || (n =? 12)%nat || (n =? 13)%nat.

Fixpoint drop_space (l : list ascii) : list ascii :=
  match l with
  | c :: t => if is_js_space c then drop_space t else l
  | [] => []
  end.

Definition js_trim (l : list ascii) : list ascii := rev (drop_space (rev (drop_space l))).

Definition digit_value (c : ascii) : option Z :=
  let n := Z.of_nat (nat_of_ascii c) in
  if (48 <=? n) && (n <=? 57) then Some (n - 48) else None.

Fixpoint take_digits (l : list ascii) : list Z * list ascii :=
  match l with
  | c :: t =>
      match digit_value c with
      | Some d => let (ds, r) := take_digits t in (d :: ds, r)
      | None => ([], l)
      end
  | [] => ([], [])
  end.

Definition digits_value (ds : list Z) : Z := fold_left (fun acc d => acc * 10 + d) ds 0.

Definition take_sign (l : list ascii) : Z * list ascii :=
  match l with
  | "-"%char :: t => (-1, t)
  | "+"%char :: t => (1, t)
  | _ => (1, l)
  end.

(** The optional exponent part [e+12] of a decimal literal, up to the end. *)
Definition exponent_part (l : list ascii) : option Z :=
  match l with
  | [] => Some 0
  | e :: t =>
      if Ascii.eqb e "e" || Ascii.eqb e "E" then
        let (sg, t') := take_sign t in
        match take_digits t' with
        | ((_ :: _) as ds, []) => Some (sg * digits_value ds)
        | _ => None
        end
      else None
  end.

(** [Number(string)] on decimal literals, as an exact rational: [None] is
    [NaN]. The empty (or all white space) string is [0]. Hexadecimal, octal,
    binary and [Infinity] literals are outside the model (read as [NaN]); the
    serialisation of a colour contains none of them. *)
Definition js_Number (s : string) : option Q :=
  match js_trim (list_ascii_of_string s) with
  | [] => Some 0%Q
  | l =>
      let (sg, l1) := take_sign l in
      let (ip, l2) := take_digits l1 in
      let (fp, l3) := match l2 with
                      | "."%char :: t => take_digits t
                      | _ => ([], l2)
                      end in
      match ip, fp with
      | [], [] => None
      | _, _ =>
          match exponent_part l3 with
          | Some e =>
              Some (inject_Z (sg * digits_value (ip ++ fp))
                    * Qpower (10 # 1) (e - Z.of_nat (List.length fp)))%Q
          | None => None
          end
      end
  end.

(** [ToInt32] as used by the bit operations of [toRgba]: truncation, [NaN]
    (and [undefined]) give [0]; the wrap-around is in [toRgba]'s mask. *)
Definition js_to_int32 (x : option Q) : Z :=
  match x with
  | None => 0
  | Some q => if Qlt_le_dec q 0 then Qceiling q else Qfloor q
  end.

(** [Math.round(a * 255)], [NaN] staying [NaN]. *)
Definition js_round_255 (a : option Q) : option Q :=
  match a with
  | None => None
  | Some q => Some (inject_Z (js_round (q * 255)))
  end.

(* ------------------------------------------------------------------------- *)
(** ** The validation surface (a 1x1 canvas with [globalCompositeOperation =
    'copy']) *)

(** The four bytes of [getImageData(0, 0, 1, 1).data]. *)
Record Pixel := mkPixel { px_r : Z; px_g : Z; px_b : Z; px_a : Z }.

(** The host's canvas. After [fillStyle = litmus; fillStyle = s], [fillStyle]
    is a string iff the engine accepted [s] ([fill_style s = Some t], [t] its
    serialisation); otherwise it still holds the gradient. [image_data t] is
    the pixel painted by [fillRect] with the fill style [t]. *)
Record Host := mkHost {
  fill_style : string -> option string;
  image_data : string -> Pixel
}.

(** Results of code that may throw a [TypeError], with the [console.warn]
    lines it printed. *)
Inductive Res (A : Type) : Type :=
| Ok (a : A) (log : list string)
| TypeError.
Arguments Ok {A} a log.
Arguments TypeError {A}.

(** What [_parseColor] returns: the [fallback] object itself (so that the
    caller's identity test [=== nullColor] can be modelled), or a new colour. *)
Inductive ParseOut : Type :=
| Fallback
| Parsed (c : Color).

(** The [css] of the [fallback] read by a warning: [undefined.css] throws. *)
Definition warn_with (fallback : option Color) (msg : string -> string) : Res ParseOut :=
  match fallback with
  | Some fb => Ok Fallback [msg (css fb)]
  | None => TypeError
  end.

(** [ColorManager._parseColor] on the canvas [h]. [fallback] is a JavaScript
    value: [None] is [undefined]. *)
Definition parseColor (h : Host) (input : option string) (fallback : option Color)
    (allowTransparency : bool) : Res ParseOut :=
  match input with
  | None => Ok Fallback []
  | Some s =>
      match fill_style h s with
      | None =>
          warn_with fallback (fun f => "Color: " ++ s ++ " is invalid using fallback " ++ f)%string
      | Some fs =>
          let data := image_data h fs in
          if negb (px_a data =? 0xFF) then
            if negb allowTransparency then
              warn_with fallback (fun f =>
                "Color: " ++ s ++ " is using transparency, but allowTransparency is false. "
                ++ "Using fallback " ++ f ++ ".")%string
            else
              let comps := map js_Number
                             (js_split "," (js_substring fs 5 (Z.of_nat (String.length fs) - 1))) in
              let comp k := match nth_error comps k with Some x => x | None => None end in
              let alpha := js_round_255 (comp 3%nat) in
              let rgba_ := toRgba (js_to_int32 (comp 0%nat)) (js_to_int32 (comp 1%nat))
                                  (js_to_int32 (comp 2%nat)) (js_to_int32 alpha) in
              Ok (Parsed {| css := s; rgba := rgba_ |}) []
          else
            Ok (Parsed {| css := fs;
                          rgba := toRgba (px_r data) (px_g data) (px_b data) (px_a data) |}) []
      end
  end.

(** The value the caller receives from [_parseColor]. *)
Definition value_of {A} (fallback : A) (inj : Color -> A) (p : ParseOut) : A :=
  match p with
  | Fallback => fallback
  | Parsed c => inj c
  end.

(* ------------------------------------------------------------------------- *)
(** ** JavaScript arrays of colours *)

(** An array of colours; [None] is [undefined] (or a hole). *)
Definition JsArray := list (option Color).

(** [a[i]]: [undefined] outside the array. *)
Definition js_get (a : JsArray) (i : Z) : option Color :=
  if i <? 0 then None
  else match nth_error a (Z.to_nat i) with Some x => x | None => None end.

(** [a[i] = x]: in range it replaces, past the end it extends the array (the
    gap becomes holes); a negative [i] names a property, not an element, and
    leaves the elements unchanged. *)
Definition js_set (a : JsArray) (i : Z) (x : option Color) : JsArray :=
  if i <? 0 then a
  else if (Z.to_nat i <? List.length a)%nat then
    firstn (Z.to_nat i) a ++ x :: skipn (S (Z.to_nat i)) a
  else a ++ repeat None (Z.to_nat i - List.length a) ++ [x].

(* ------------------------------------------------------------------------- *)
(** ** Themes, the colour set, the restore snapshot and the cache *)

Module ITheme.
(** [ITheme]: every field is optional; [extendedAnsi] is an array of strings. *)
Record t := mk {
  foreground : option string;
  background : option string;
  cursor : option string;
  cursorAccent : option string;
  selection : option string;
  selectionForeground : option string;
  black : option string;
  red : option string;
  green : option string;
  yellow : option string;
  blue : option string;
  magenta : option string;
  cyan : option string;
  white : option string;
  brightBlack : option string;
  brightRed : option string;
  brightGreen : option string;
  brightYellow : option string;
  brightBlue : option string;
  brightMagenta : option string;
  brightCyan : option string;
  brightWhite : option string;
  extendedAnsi : option (list string)
}.

(** The theme [{}]. *)
Definition empty : t :=
  mk None None None None None None None None None None None None None None
     None None None None None None None None None.

(** The sixteen named colours, in palette order. *)
Definition base16 (th : t) : list (option string) :=
  [black th; red th; green th; yellow th; blue th; magenta th; cyan th; white th;
   brightBlack th; brightRed th; brightGreen th; brightYellow th;
   brightBlue th; brightMagenta th; brightCyan th; brightWhite th].
End ITheme.

(** [IColorSet]; its [contrastCache] is the manager's cache (the [State]
    field [contrastCache]). *)
Record ColorSet := mkColorSet {
  foreground : Color;
  background : Color;
  cursor : Color;
  cursorAccent : Color;
  selectionTransparent : Color;
  selectionOpaque : Color;
  selectionForeground : option Color;
  ansi : JsArray
}.

Module IRestoreColorSet.
(** [IRestoreColorSet]. *)
Record t := mk {
  foreground : Color;
  background : Color;
  cursor : Color;
  ansi : JsArray
}.
End IRestoreColorSet.

(** Modelled from the spec: the Contrast Cache [ColorContrastCache] (not in
    src/), "a mapping keyed by a pair of colors ... exposes clear/get/set":
    entries keyed by the packed background and foreground colours. *)
Definition ContrastCache := list ((Z * Z) * option Color).

Definition cache_clear (c : ContrastCache) : ContrastCache := [].

Definition cache_set (c : ContrastCache) (bg fg : Z) (x : option Color) : ContrastCache :=
  ((bg, fg), x) :: c.

Fixpoint cache_get (c : ContrastCache) (bg fg : Z) : option (option Color) :=
  match c with
  | [] => None
  | ((b, f), x) :: t => if (b =? bg) && (f =? fg) then Some x else cache_get t bg fg
  end.

(** The fields of a [ColorManager], with the [console.warn] output. *)
Record State := mkState {
  colors : ColorSet;
  ctx : Host;
  allowTransparency : bool;
  contrastCache : ContrastCache;
  restoreColors : IRestoreColorSet.t;
  console : list string
}.

Definition set_colors (cs : ColorSet) (s : State) : State :=
  mkState cs (ctx s) (allowTransparency s) (contrastCache s) (restoreColors s) (console s).
Definition set_allowTransparency (b : bool) (s : State) : State :=
  mkState (colors s) (ctx s) b (contrastCache s) (restoreColors s) (console s).
Definition set_contrastCache (c : ContrastCache) (s : State) : State :=
  mkState (colors s) (ctx s) (allowTransparency s) c (restoreColors s) (console s).
Definition set_restoreColors (r : IRestoreColorSet.t) (s : State) : State :=
  mkState (colors s) (ctx s) (allowTransparency s) (contrastCache s) r (console s).
Definition log_lines (l : list string) (s : State) : State :=
  mkState (colors s) (ctx s) (allowTransparency s) (contrastCache s) (restoreColors s)
          (console s ++ l).

(** Assignments to the fields of [this.colors]. *)
Definition assign_foreground (c : Color) (x : ColorSet) : ColorSet :=
  mkColorSet c (background x) (cursor x) (cursorAccent x) (selectionTransparent x)
             (selectionOpaque x) (selectionForeground x) (ansi x).
Definition assign_background (c : Color) (x : ColorSet) : ColorSet :=
  mkColorSet (foreground x) c (cursor x) (cursorAccent x) (selectionTransparent x)
             (selectionOpaque x) (selectionForeground x) (ansi x).
Definition assign_cursor (c : Color) (x : ColorSet) : ColorSet :=
  mkColorSet (foreground x) (background x) c (cursorAccent x) (selectionTransparent x)
             (selectionOpaque x) (selectionForeground x) (ansi x).
Definition assign_cursorAccent (c : Color) (x : ColorSet) : ColorSet :=
  mkColorSet (foreground x) (background x) (cursor x) c (selectionTransparent x)
             (selectionOpaque x) (selectionForeground x) (ansi x).
Definition assign_selectionTransparent (c : Color) (x : ColorSet) : ColorSet :=
  mkColorSet (foreground x) (background x) (cursor x) (cursorAccent x) c
             (selectionOpaque x) (selectionForeground x) (ansi x).
Definition assign_selectionOpaque (c : Color) (x : ColorSet) : ColorSet :=
  mkColorSet (foreground x) (background x) (cursor x) (cursorAccent x)
             (selectionTransparent x) c (selectionForeground x) (ansi x).
Definition assign_selectionForeground (c : option Color) (x : ColorSet) : ColorSet :=
  mkColorSet (foreground x) (background x) (cursor x) (cursorAccent x)
             (selectionTransparent x) (selectionOpaque x) c (ansi x).
(** [this.colors.ansi[i] = c] *)
Definition assign_ansi_at (i : Z) (c : option Color) (x : ColorSet) : ColorSet :=
  mkColorSet (foreground x) (background x) (cursor x) (cursorAccent x)
             (selectionTransparent x) (selectionOpaque x) (selectionForeground x)
             (js_set (ansi x) i c).

(* ------------------------------------------------------------------------- *)
(** ** The state and exception monad of the manager's methods *)

(** A method either returns, or throws part-way through, leaving the fields
    as the statements before the throw wrote them. *)
Inductive Outcome (A : Type) : Type :=
| Normal (s : State) (a : A)
| Thrown (s : State).
Arguments Normal {A} s a.
Arguments Thrown {A} s.

Definition M (A : Type) : Type := State -> Outcome A.

Definition ret {A} (a : A) : M A := fun s => Normal s a.

Definition bind {A B} (m : M A) (k : A -> M B) : M B :=
  fun s => match m s with
           | Normal s' a => k a s'
           | Thrown s' => Thrown s'
           end.

Notation "x <- m ;; k" := (bind m (fun x => k))
  (at level 61, m at next level, right associativity).
Notation "m ;; k" := (bind m (fun _ => k)) (at level 61, right associativity).

Definition get : M State := fun s => Normal s s.
Definition modify (f : State -> State) : M unit := fun s => Normal (f s) tt.
Definition update_colors (f : ColorSet -> ColorSet) : M unit :=
  modify (fun s => set_colors (f (colors s)) s).

(** The state after a method, whether it returned or threw. *)
Definition final {A} (o : Outcome A) : State :=
  match o with Normal s _ => s | Thrown s => s end.

(** [this._parseColor(input, fallback[, allow])]: [allow = None] uses the
    default argument [this.allowTransparency]. *)
Definition _parseColor (input : option string) (fallback : option Color)
    (allow : option bool) : M ParseOut :=
  fun s =>
    let at_ := match allow with Some b => b | None => allowTransparency s end in
    match parseColor (ctx s) input fallback at_ with
    | Ok p l => Normal (log_lines l s) p
    | TypeError => Thrown s
    end.

(** [for (let i = start; i < start + n; i++) body(i)] *)
Fixpoint for_range (start : Z) (n : nat) (body : Z -> M unit) : M unit :=
  match n with
  | O => ret tt
  | S n' => body start ;; for_range (start + 1) n' body
  end.

(* ------------------------------------------------------------------------- *)
(** ** ColorManager *)

Definition nullColor : Color := {| css := ""; rgba := 0 |}.

(** The colour set of the constructor. *)
Definition initial_colors : ColorSet :=
  {| foreground := DEFAULT_FOREGROUND;
     background := DEFAULT_BACKGROUND;
     cursor := DEFAULT_CURSOR;
     cursorAccent := DEFAULT_CURSOR_ACCENT;
     selectionTransparent := DEFAULT_SELECTION;
     selectionOpaque := blend DEFAULT_BACKGROUND DEFAULT_SELECTION;
     selectionForeground := None;
     ansi := map Some DEFAULT_ANSI_COLORS |}.

(** [_updateRestoreColors] *)
Definition _updateRestoreColors : M unit :=
  modify (fun s =>
    set_restoreColors
      {| IRestoreColorSet.foreground := foreground (colors s);
         IRestoreColorSet.background := background (colors s);
         IRestoreColorSet.cursor := cursor (colors s);
         IRestoreColorSet.ansi := ansi (colors s) |} s).

(** [new ColorManager(document, allowTransparency)], for a document whose
    canvas has a 2d context [h]. *)
Definition construct (h : Host) (allowTransparency_ : bool) : State :=
  final (_updateRestoreColors
           {| colors := initial_colors; ctx := h; allowTransparency := allowTransparency_;
              contrastCache := []; restoreColors :=
                {| IRestoreColorSet.foreground := DEFAULT_FOREGROUND;
                   IRestoreColorSet.background := DEFAULT_BACKGROUND;
                   IRestoreColorSet.cursor := DEFAULT_CURSOR;
                   IRestoreColorSet.ansi := [] |};
              console := [] |}).

(** [onOptionsChange(key, value)]; [value] is used only for its truthiness. *)
Definition onOptionsChange (key : string) (value : bool) : M unit :=
  if String.eqb key "minimumContrastRatio" then
    modify (fun s => set_contrastCache (cache_clear (contrastCache s)) s)
  else if String.eqb key "allowTransparency" then
    modify (set_allowTransparency value)
  else ret tt.

(** [this.colors.ansi[i] = this._parseColor(input, DEFAULT_ANSI_COLORS[i])] *)
Definition parse_ansi (i : Z) (input : option string) : M unit :=
  p <- _parseColor input (default_ansi i) None ;;
  update_colors (assign_ansi_at i (value_of (default_ansi i) Some p)).

(** The sixteen named colours, [ansi[0]] to [ansi[15]], in order. *)
Fixpoint parse_base (i : Z) (inputs : list (option string)) : M unit :=
  match inputs with
  | [] => ret tt
  | x :: t => parse_ansi i x ;; parse_base (i + 1) t
  end.

(** [setTheme(theme)] *)
Definition setTheme (theme : ITheme.t) : M unit :=
  p <- _parseColor (ITheme.foreground theme) (Some DEFAULT_FOREGROUND) None ;;
  update_colors (assign_foreground (value_of DEFAULT_FOREGROUND id p)) ;;
  p <- _parseColor (ITheme.background theme) (Some DEFAULT_BACKGROUND) None ;;
  update_colors (assign_background (value_of DEFAULT_BACKGROUND id p)) ;;
  p <- _parseColor (ITheme.cursor theme) (Some DEFAULT_CURSOR) (Some true) ;;
  update_colors (assign_cursor (value_of DEFAULT_CURSOR id p)) ;;
  p <- _parseColor (ITheme.cursorAccent theme) (Some DEFAULT_CURSOR_ACCENT) (Some true) ;;
  update_colors (assign_cursorAccent (value_of DEFAULT_CURSOR_ACCENT id p)) ;;
  p <- _parseColor (ITheme.selection theme) (Some DEFAULT_SELECTION) (Some true) ;;
  update_colors (assign_selectionTransparent (value_of DEFAULT_SELECTION id p)) ;;
  update_colors (fun x => assign_selectionOpaque
                            (blend (background x) (selectionTransparent x)) x) ;;
  (* theme.selectionForeground ? parse(..., nullColor) : undefined *)
  sf <- match ITheme.selectionForeground theme with
        | Some str =>
            if String.eqb str "" then ret None
            else p <- _parseColor (Some str) (Some nullColor) None ;; ret (Some p)
        | None => ret None
        end ;;
  update_colors (assign_selectionForeground
                   (match sf with Some p => value_of (Some nullColor) Some p | None => None end)) ;;
  (* the identity test [=== nullColor] holds exactly when the fallback came back *)
  (match sf with
   | Some Fallback => update_colors (assign_selectionForeground None)
   | _ => ret tt
   end) ;;
  s <- get ;;
  (if isOpaque (selectionTransparent (colors s)) then
     update_colors (fun x => assign_selectionTransparent
                               (opacity (selectionTransparent x) (3 # 10)) x)
   else ret tt) ;;
  parse_base 0 (ITheme.base16 theme) ;;
  (match ITheme.extendedAnsi theme with
   | Some ext =>
       let colorCount := Z.max (Z.of_nat (List.length ext) + 16) 256 in
       for_range 16 (Z.to_nat (colorCount - 16))
         (fun i => parse_ansi i (nth_error ext (Z.to_nat (i - 16))))
   | None => ret tt
   end) ;;
  modify (fun s => set_contrastCache (cache_clear (contrastCache s)) s) ;;
  _updateRestoreColors.

(** Modelled from the spec: the const enum [ColorIndex] is declared in
    common/Types, which is not in src/. Its members are the reserved slots
    of the structural colours that the spec's [restoreColor(slot?)] tells
    apart from palette indices; xterm.js gives them the values
    [FOREGROUND = 256], [BACKGROUND = 257] and [CURSOR = 258]. A slot is a
    number (an integer here), and [switch] compares it with [===]. *)
Definition ColorIndex := Z.
Definition FOREGROUND : ColorIndex := 256.
Definition BACKGROUND : ColorIndex := 257.
Definition CURSOR : ColorIndex := 258.

(** [for (let i = start; i < start + n; ++i) colors.ansi[i] = src[i]] *)
Fixpoint restore_loop (i : Z) (n : nat) (src : JsArray) (dst : ColorSet) : ColorSet :=
  match n with
  | O => dst
  | S n' => restore_loop (i + 1) n' src (assign_ansi_at i (js_get src i) dst)
  end.

(** [restoreColor(slot?)]: no slot restores every entry of the snapshot's
    [ansi]; the three [ColorIndex] members restore one structural colour;
    the [default] branch writes [colors.ansi[slot]]. *)
Definition restoreColor (slot : option ColorIndex) : M unit :=
  fun s =>
    let r := restoreColors s in
    match slot with
    | None =>
        Normal (set_colors (restore_loop 0 (List.length (IRestoreColorSet.ansi r))
                                         (IRestoreColorSet.ansi r) (colors s)) s) tt
    | Some slot =>
        if slot =? FOREGROUND then
          Normal (set_colors (assign_foreground (IRestoreColorSet.foreground r) (colors s)) s) tt
        else if slot =? BACKGROUND then
          Normal (set_colors (assign_background (IRestoreColorSet.background r) (colors s)) s) tt
        else if slot =? CURSOR then
          Normal (set_colors (assign_cursor (IRestoreColorSet.cursor r) (colors s)) s) tt
        else
          Normal (set_colors (assign_ansi_at slot (js_get (IRestoreColorSet.ansi r) slot)
                                             (colors s)) s) tt
    end.

(* ------------------------------------------------------------------------- *)
(** ** Runs of the manager *)

(** Modelled from the spec: the renderer's [set] on the Contrast Cache (the
    cache is the collaborator of the spec's section 6, filled by the
    rendering code through [colors.contrastCache]). *)
Definition cacheStore (bg fg : Z) (x : option Color) : M unit :=
  modify (fun s => set_contrastCache (cache_set (contrastCache s) bg fg x) s).

(** The calls a terminal makes on its colour manager. *)
Inductive Op : Type :=
| OpSetTheme (theme : ITheme.t)
| OpRestoreColor (slot : option ColorIndex)
| OpOptionsChange (key : string) (value : bool)
| OpCacheStore (bg fg : Z) (x : option Color).

Definition op_method (o : Op) : M unit :=
  match o with
  | OpSetTheme th => setTheme th
  | OpRestoreColor slot => restoreColor slot
  | OpOptionsChange k v => onOptionsChange k v
  | OpCacheStore bg fg x => cacheStore bg fg x
  end.

(** The fields after a call; a call that throws keeps what it wrote before
    the throw (the caller may catch the exception and go on). *)
Definition run_op (o : Op) (s : State) : State := final (op_method o s).

Definition run_ops (os : list Op) (s : State) : State := fold_left (fun s o => run_op o s) os s.

Inductive reachable : State -> Prop :=
| reachable_init (h : Host) (b : bool) : reachable (construct h b)
| reachable_step (o : Op) (s : State) : reachable s -> reachable (run_op o s).

Definition is_setTheme (o : Op) : bool :=
  match o with OpSetTheme _ => true | _ => false end.

(* ------------------------------------------------------------------------- *)
(** ** A concrete canvas for the examples *)

Definition lower (c : ascii) : ascii :=
  let n := nat_of_ascii c in
  if (65 <=? n)%nat && (n <=? 90)%nat then ascii_of_nat (n + 32) else c.

Fixpoint map_string (f : ascii -> ascii) (s : string) : string :=
  match s with
  | EmptyString => EmptyString
  | String c s' => String (f c) (map_string f s')
  end.

Fixpoint all_hex (s : string) : bool :=
  match s with
  | EmptyString => true
  | String c s' => match hex_value c with Some _ => all_hex s' | None => false end
  end.

(** It accepts [#rrggbb] in any case, serialised in lower case and painted
    opaque, and the one translucent colour [rgba(51,102,153,.5)], serialised
    as [rgba(51, 102, 153, 0.5)] and read back with premultiplied rounding. *)
Definition demo_fill_style (s : string) : option string :=
  match s with
  | String "#"%char rest =>
      if (String.length rest =? 6)%nat && all_hex rest
      then Some (String "#"%char (map_string lower rest)) else None
  | _ => if String.eqb s "rgba(51,102,153,.5)" then Some "rgba(51, 102, 153, 0.5)"%string
         else None
  end.

Definition demo_image_data (t : string) : Pixel :=
  match t with
  | String "#"%char rest =>
      let n := parse_hex rest 0 in
      mkPixel ((n / 65536) mod 256) ((n / 256) mod 256) (n mod 256) 255
  | _ => if String.eqb t "rgba(51, 102, 153, 0.5)" then mkPixel 51 102 153 128
         else mkPixel 0 0 0 0
  end.

Definition demo_host : Host := mkHost demo_fill_style demo_image_data.

(** A theme that sets only [selection]. *)
Definition theme_selection (x : string) : ITheme.t :=
  ITheme.mk None None None None (Some x) None None None None None None None None None None
            None None None None None None None None.

(** A theme that sets only [extendedAnsi]. *)
Definition theme_extended (xs : list string) : ITheme.t :=
  ITheme.mk None None None None None None None None None None None None None None None
            None None None None None None None (Some xs).

(* ------------------------------------------------------------------------- *)
(** ** Auxiliary definitions for the proofs *)

(** The palette entry [i] has the channels of the cube (resp. grey) formula. *)
Definition cube_check (i : Z) : bool :=
  match default_ansi i with
  | Some c =>
      (chan_r c =? nth (Z.to_nat (((i - 16) / 36) mod 6)) [0x00; 0x5f; 0x87; 0xaf; 0xd7; 0xff] 0)
      && (chan_g c =? nth (Z.to_nat (((i - 16) / 6) mod 6)) [0x00; 0x5f; 0x87; 0xaf; 0xd7; 0xff] 0)
      && (chan_b c =? nth (Z.to_nat ((i - 16) mod 6)) [0x00; 0x5f; 0x87; 0xaf; 0xd7; 0xff] 0)
      && (chan_a c =? 255)
  | None => false
  end.

Definition grey_check (i : Z) : bool :=
  match default_ansi i with
  | Some c =>
      (chan_r c =? 8 + 10 * (i - 232)) && (chan_g c =? 8 + 10 * (i - 232))
      && (chan_b c =? 8 + 10 * (i - 232)) && (chan_a c =? 255)
  | None => false
  end.

(** [s] contains the character [c]. *)
Fixpoint has_char (c : ascii) (s : string) : bool :=
  match s with
  | EmptyString => false
  | String d s' => Ascii.eqb d c || has_char c s'
  end.

(** A run of assignments [a[i] = x], in order. *)
Definition apply_writes (W : list (Z * option Color)) (a : JsArray) : JsArray :=
  fold_left (fun a w => js_set a (fst w) (snd w)) W a.

(** The value of the last assignment to index [j] in [W], if any. *)
Fixpoint last_write (W : list (Z * option Color)) (j : Z) : option (option Color) :=
  match W with
  | [] => None
  | w :: W' =>
      match last_write W' j with
      | Some x => Some x
      | None => if fst w =? j then Some (snd w) else None
      end
  end.

(** The length of an array of length [n] after the assignments [W]. *)
Definition reach (W : list (Z * option Color)) (n : nat) : nat :=
  fold_left (fun n w => Nat.max n (S (Z.to_nat (fst w)))) W n.

(** The colour [_parseColor] hands back when it returns. *)
Definition parsed_or (fb : Color) (r : Res ParseOut) : Color :=
  match r with Ok p _ => value_of fb id p | TypeError => fb end.

(** The selection colour of [theme], resolved with transparency allowed. *)
Definition resolved_selection (h : Host) (th : ITheme.t) : Color :=
  parsed_or DEFAULT_SELECTION (parseColor h (ITheme.selection th) (Some DEFAULT_SELECTION) true).

(** The colour set [setTheme theme] writes on the canvas [h] with the flag
    [at_], given the palette [a]. *)
Definition theme_colors (h : Host) (at_ : bool) (th : ITheme.t) (a : JsArray) : ColorSet :=
  let fg := parsed_or DEFAULT_FOREGROUND
              (parseColor h (ITheme.foreground th) (Some DEFAULT_FOREGROUND) at_) in
  let bg := parsed_or DEFAULT_BACKGROUND
              (parseColor h (ITheme.background th) (Some DEFAULT_BACKGROUND) at_) in
  let cu := parsed_or DEFAULT_CURSOR
              (parseColor h (ITheme.cursor th) (Some DEFAULT_CURSOR) true) in
  let ca := parsed_or DEFAULT_CURSOR_ACCENT
              (parseColor h (ITheme.cursorAccent th) (Some DEFAULT_CURSOR_ACCENT) true) in
  let sel := resolved_selection h th in
  let sf := match ITheme.selectionForeground th with
            | Some str =>
                if String.eqb str "" then None
                else match parseColor h (Some str) (Some nullColor) at_ with
                     | Ok (Parsed c) _ => Some c
                     | _ => None
                     end
            | None => None
            end in
  {| foreground := fg; background := bg; cursor := cu; cursorAccent := ca;
     selectionTransparent := if isOpaque sel then opacity sel (3 # 10) else sel;
     selectionOpaque := blend bg sel;
     selectionForeground := sf;
     ansi := a |}.

(** The snapshot [_updateRestoreColors] takes of the colour set [x]. *)
Definition snapshot_of (x : ColorSet) : IRestoreColorSet.t :=
  {| IRestoreColorSet.foreground := foreground x;
     IRestoreColorSet.background := background x;
     IRestoreColorSet.cursor := cursor x;
     IRestoreColorSet.ansi := ansi x |}.

(** What a call of [setTheme theme] from [s] does, given the palette
    assignments [W] of its loops and whether it throws ([t]). *)
Definition theme_post (h : Host) (at_ : bool) (th : ITheme.t) (W : list (Z * option Color))
    (t : bool) (s : State) (o : Outcome unit) : Prop :=
  colors (final o) = theme_colors h at_ th (apply_writes W (ansi (colors s))) /\
  ctx (final o) = ctx s /\ allowTransparency (final o) = allowTransparency s /\
  match o with
  | Normal s' _ => t = false /\ contrastCache s' = [] /\ restoreColors s' = snapshot_of (colors s')
  | Thrown s' => t = true /\ contrastCache s' = contrastCache s /\ restoreColors s' = restoreColors s
  end.

(** A palette with at least 256 entries, each of [0..255] defined. *)
Definition palette_ok (a : JsArray) : Prop :=
  (256 <= List.length a)%nat /\ forall i, 0 <= i < 256 -> js_get a i <> None.

(** The live palette and the snapshot's are both [palette_ok]. *)
Definition palettes_ok (s : State) : Prop :=
  palette_ok (ansi (colors s)) /\ palette_ok (IRestoreColorSet.ansi (restoreColors s)).

(** The snapshot holds the palette [A], and the live palette agrees with [A]
    past its end. *)
Definition restore_agrees (A : JsArray) (s : State) : Prop :=
  IRestoreColorSet.ansi (restoreColors s) = A /\
  forall j, Z.of_nat (List.length A) <= j -> js_get (ansi (colors s)) j = js_get A j.

(** [#ff0000] as the canvas reads it back. *)
Definition red : Color := {| css := "#ff0000"; rgba := 0xFF0000FF |}.

(** The colour set [x] with the palette [a]. *)
Definition with_ansi (x : ColorSet) (a : JsArray) : ColorSet :=
  mkColorSet (foreground x) (background x) (cursor x) (cursorAccent x)
             (selectionTransparent x) (selectionOpaque x) (selectionForeground x) a.

(** [s'] is [s] after the palette assignments [W] (and console output). *)
Definition ansi_written (W : list (Z * option Color)) (s s' : State) : Prop :=
  ctx s' = ctx s /\ allowTransparency s' = allowTransparency s /\
  contrastCache s' = contrastCache s /\ restoreColors s' = restoreColors s /\
  colors s' = with_ansi (colors s) (apply_writes W (ansi (colors s))).

(** Assignments at non-negative indices, defined below 256. *)
Definition writes_ok (W : list (Z * option Color)) : Prop :=
  Forall (fun w => 0 <= fst w /\ (fst w < 256 -> snd w <> None)) W.

(** On a canvas [h] with the flag [at_], the method [m] only makes the palette
    assignments [W], whatever the state, and throws iff [t]. *)
Definition shaped (h : Host) (at_ : bool) (m : M unit) (W : list (Z * option Color)) (t : bool)
  : Prop :=
  forall s, ctx s = h -> allowTransparency s = at_ ->
    match m s with
    | Normal s' _ => t = false /\ ansi_written W s s'
    | Thrown s' => t = true /\ ansi_written W s s'
    end.

(** The entry [this.colors.ansi[i] = this._parseColor(x, DEFAULT_ANSI_COLORS[i])]
    stores, when the call returns. *)
Definition resolved_entry (h : Host) (at_ : bool) (i : Z) (x : option string) : option Color :=
  match parseColor h x (default_ansi i) at_ with
  | Ok p _ => value_of (default_ansi i) Some p
  | TypeError => None
  end.

(** Whether that call throws (only a fallback [undefined], past index 255, can). *)
Definition throws_at (h : Host) (at_ : bool) (i : Z) (x : option string) : bool :=
  match parseColor h x (default_ansi i) at_ with
  | Ok _ _ => false
  | TypeError => true
  end.

(** The last value the loops of [setTheme theme] assign to [ansi[j]], if any. *)
Definition theme_entry (h : Host) (at_ : bool) (th : ITheme.t) (j : Z) : option (option Color) :=
  if (0 <=? j) && (j <? 16)
  then Some (resolved_entry h at_ j (nth (Z.to_nat j) (ITheme.base16 th) None))
  else match ITheme.extendedAnsi th with
       | Some e =>
           if (16 <=? j) && (j <? Z.max (Z.of_nat (List.length e) + 16) 256)
           then Some (resolved_entry h at_ j (nth_error e (Z.to_nat (j - 16))))
           else None
       | None => None
       end.

(** Some iteration of the [extendedAnsi] loop of [setTheme theme] throws. *)
Definition ext_throws (h : Host) (at_ : bool) (th : ITheme.t) : Prop :=
  match ITheme.extendedAnsi th with
  | Some e =>
      exists i, 16 <= i < Z.max (Z.of_nat (List.length e) + 16) 256 /\
                throws_at h at_ i (nth_error e (Z.to_nat (i - 16))) = true
  | None => False
  end.

(** The assignments [colors.ansi[i] = src[i]] of [restore_loop i n src]. *)
Fixpoint restore_writes (i : Z) (n : nat) (src : JsArray) : list (Z * option Color) :=
  match n with
  | O => []
  | S n' => (i, js_get src i) :: restore_writes (i + 1) n' src
  end.

(* ========================================================================= *)
(** * Properties *)

Open Scope string_scope.
Open Scope Z_scope.

(* ------------------------------------------------------------------------- *)
(** ** Packing *)

Lemma lor_shiftl_low (x y k : Z) :
  0 <= k -> 0 <= y < 2 ^ k -> Z.lor (Z.shiftl x k) y = x * 2 ^ k + y.
Proof.
  intros Hk Hy.
  assert (Hd : Z.land (Z.shiftl x k) y = 0).
  { apply Z.bits_inj_0; intro n. rewrite Z.land_spec.
    destruct (Z.lt_ge_cases n k) as [Hn | Hn].
    - destruct (Z.lt_ge_cases n 0) as [Hn0 | Hn0].
      + rewrite Z.testbit_neg_r; auto.
      + rewrite Z.shiftl_spec_low; auto.
    - rewrite <- (Z.mod_small y (2 ^ k)) by lia.
      rewrite Z.mod_pow2_bits_high by lia. apply andb_false_r. }
  rewrite <- Z.lxor_lor by exact Hd. rewrite <- Z.add_nocarry_lxor by exact Hd.
  rewrite Z.shiftl_mul_pow2 by lia. reflexivity.
Qed.

(** [toRgba] packs four bytes as [0xRRGGBBAA]. *)
Lemma toRgba_pack (r g b a : Z) :
  0 <= r < 256 -> 0 <= g < 256 -> 0 <= b < 256 -> 0 <= a < 256 ->
  toRgba r g b a = r * 2 ^ 24 + g * 2 ^ 16 + b * 2 ^ 8 + a.
Proof.
  intros Hr Hg Hb Ha. unfold toRgba.
  replace (Z.shiftl r 24) with (Z.shiftl (Z.shiftl r 8) 16)
    by (rewrite Z.shiftl_shiftl by lia; reflexivity).
  rewrite <- Z.shiftl_lor, (lor_shiftl_low r g 8) by (simpl; lia).
  replace (Z.shiftl (r * 2 ^ 8 + g) 16) with (Z.shiftl (Z.shiftl (r * 2 ^ 8 + g) 8) 8)
    by (rewrite Z.shiftl_shiftl by lia; reflexivity).
  rewrite <- Z.shiftl_lor, (lor_shiftl_low (r * 2 ^ 8 + g) b 8) by (simpl; lia).
  rewrite (lor_shiftl_low ((r * 2 ^ 8 + g) * 2 ^ 8 + b) a 8) by (simpl; lia).
  rewrite Z.land_ones by lia. rewrite Z.mod_small by (simpl in *; lia).
  simpl. lia.
Qed.

Lemma chan_bounds (c : Color) :
  0 <= chan_r c < 256 /\ 0 <= chan_g c < 256 /\ 0 <= chan_b c < 256 /\ 0 <= chan_a c < 256.
Proof.
  unfold chan_r, chan_g, chan_b, chan_a.
  change 255 with (Z.ones 8). rewrite !Z.land_ones by lia.
  repeat split; try apply Z.mod_pos_bound; lia.
Qed.

(** The four channels of a packed colour. *)
Lemma chans_of_pack (r g b a : Z) :
  0 <= r < 256 -> 0 <= g < 256 -> 0 <= b < 256 -> 0 <= a < 256 ->
  let c := {| css := ""; rgba := toRgba r g b a |} in
  chan_r c = r /\ chan_g c = g /\ chan_b c = b /\ chan_a c = a.
Proof.
  intros Hr Hg Hb Ha c. unfold c, chan_r, chan_g, chan_b, chan_a; cbn [rgba].
  rewrite toRgba_pack by lia.
  change 255 with (Z.ones 8). rewrite !Z.land_ones by lia.
  rewrite !Z.shiftr_div_pow2 by lia.
  replace (r * 2 ^ 24 + g * 2 ^ 16 + b * 2 ^ 8 + a)
    with (a + ((b + (g + r * 2 ^ 8) * 2 ^ 8) * 2 ^ 8)) by ring.
  replace (2 ^ 24) with (2 ^ 8 * 2 ^ 8 * 2 ^ 8) by reflexivity.
  replace (2 ^ 16) with (2 ^ 8 * 2 ^ 8) by reflexivity.
  rewrite <- !Z.div_div by lia.
  repeat first [ rewrite (Z.div_small a) by lia | rewrite (Z.div_small b) by lia
                | rewrite (Z.div_small g) by lia | rewrite Z.div_add by lia
                | rewrite Z.add_0_l ].
  rewrite !Z.mod_add by lia.
  rewrite !Z.mod_small by lia.
  repeat split.
Qed.

(* ------------------------------------------------------------------------- *)
(** ** C2: the default palette *)



Lemma range_check (f : Z -> bool) (lo : Z) (n : nat) :
  forallb (fun k => f (lo + Z.of_nat k)) (seq 0 n) = true ->
  forall i, lo <= i < lo + Z.of_nat n -> f i = true.
Proof.
  intros H i Hi. rewrite forallb_forall in H.
  specialize (H (Z.to_nat (i - lo))). rewrite Z2Nat.id in H by lia.
  replace (lo + (i - lo)) with i in H by ring. apply H, in_seq. lia.
Qed.

(** C2. The default palette has 256 entries; entry [i] of [16..231] is the
    opaque colour whose channels are [step[((i-16) div 36) mod 6]],
    [step[((i-16) div 6) mod 6]] and [step[(i-16) mod 6]] over the step table
    [00 5f 87 af d7 ff]; entry [i] of [232..255] is the opaque grey with all
    three channels [8 + 10 (i - 232)]. The palette is a constant, so every
    access gives the same sequence. *)
Theorem default_palette_spec :
  List.length DEFAULT_ANSI_COLORS = 256%nat /\
  (forall i, 16 <= i <= 231 ->
     exists c, default_ansi i = Some c /\
       chan_r c = nth (Z.to_nat (((i - 16) / 36) mod 6)) [0x00; 0x5f; 0x87; 0xaf; 0xd7; 0xff] 0 /\
       chan_g c = nth (Z.to_nat (((i - 16) / 6) mod 6)) [0x00; 0x5f; 0x87; 0xaf; 0xd7; 0xff] 0 /\
       chan_b c = nth (Z.to_nat ((i - 16) mod 6)) [0x00; 0x5f; 0x87; 0xaf; 0xd7; 0xff] 0 /\
       chan_a c = 255) /\
  (forall i, 232 <= i <= 255 ->
     exists c, default_ansi i = Some c /\
       chan_r c = 8 + 10 * (i - 232) /\ chan_g c = 8 + 10 * (i - 232) /\
       chan_b c = 8 + 10 * (i - 232) /\ chan_a c = 255).
Proof.
  split; [vm_compute; reflexivity|]. split.
  - intros i Hi.
    assert (Hc : cube_check i = true).
    { apply (range_check cube_check 16 216); [vm_compute; reflexivity | lia]. }
    unfold cube_check in Hc. destruct (default_ansi i) as [c|]; [|discriminate].
    exists c. rewrite !andb_true_iff, !Z.eqb_eq in Hc. tauto.
  - intros i Hi.
    assert (Hc : grey_check i = true).
    { apply (range_check grey_check 232 24); [vm_compute; reflexivity | lia]. }
    unfold grey_check in Hc. destruct (default_ansi i) as [c|]; [|discriminate].
    exists c. rewrite !andb_true_iff, !Z.eqb_eq in Hc. tauto.
Qed.

Lemma default_palette_spec_witness :
  (exists c, default_ansi 100 = Some c /\ chan_r c = 0x87 /\ chan_g c = 0x87 /\ chan_b c = 0
     /\ chan_a c = 255) /\
  (exists c, default_ansi 240 = Some c /\ chan_r c = 88).
Proof.
  destruct (proj1 (proj2 default_palette_spec) 100 ltac:(lia)) as (c & E & R & G & B & A).
  destruct (proj2 (proj2 default_palette_spec) 240 ltac:(lia)) as (d & E' & R' & _).
  split; [exists c | exists d]; repeat split; assumption.
Defined.

(* ------------------------------------------------------------------------- *)
(** ** C5, C6, C7: [_parseColor] *)

(** C5. [_parseColor] with a defined fallback never throws; with no input it
    returns the fallback object and logs nothing; a string the engine rejects,
    and a translucent colour when transparency is not allowed, log one
    warning and return the fallback object. *)
Theorem parseColor_total_fallback (h : Host) (fb : Color) :
  (forall at_, parseColor h None (Some fb) at_ = Ok Fallback []) /\
  (forall s at_, fill_style h s = None ->
     exists msg, parseColor h (Some s) (Some fb) at_ = Ok Fallback [msg]) /\
  (forall s fs, fill_style h s = Some fs -> px_a (image_data h fs) <> 255 ->
     exists msg, parseColor h (Some s) (Some fb) false = Ok Fallback [msg]) /\
  (forall input at_, exists p log, parseColor h input (Some fb) at_ = Ok p log).
Proof.
  split; [reflexivity|]. split; [|split].
  - intros s at_ E. unfold parseColor. rewrite E. eexists. reflexivity.
  - intros s fs E A. unfold parseColor. rewrite E.
    apply Z.eqb_neq in A. rewrite A. eexists. reflexivity.
  - intros [s|] at_; [|do 2 eexists; reflexivity].
    unfold parseColor. destruct (fill_style h s) as [fs|]; [|do 2 eexists; reflexivity].
    destruct (negb (px_a (image_data h fs) =? 255)), at_; do 2 eexists; reflexivity.
Qed.

Lemma parseColor_total_fallback_witness :
  fill_style demo_host "nope" = None /\
  parseColor demo_host (Some "nope") (Some DEFAULT_FOREGROUND) true
  = Ok Fallback ["Color: nope is invalid using fallback #ffffff"%string] /\
  (exists msg, parseColor demo_host (Some "rgba(51,102,153,.5)") (Some DEFAULT_FOREGROUND) false
               = Ok Fallback [msg]).
Proof.
  split; [reflexivity|]. split.
  - destruct (proj1 (proj2 (parseColor_total_fallback demo_host DEFAULT_FOREGROUND))
                "nope" true eq_refl) as [msg E].
    rewrite E. vm_compute in E. injection E as <-. reflexivity.
  - apply (proj1 (proj2 (proj2 (parseColor_total_fallback demo_host DEFAULT_FOREGROUND)))
             "rgba(51,102,153,.5)" "rgba(51, 102, 153, 0.5)"); vm_compute; [reflexivity|discriminate].
Defined.

(** C6. A string the engine accepts and paints fully opaque gives the colour
    whose CSS is the engine's serialisation (not the input) and whose packed
    value is built from the pixel read back, with alpha [0xFF]. *)
Theorem parseColor_opaque_canonical (h : Host) (s fs : string) (fb : option Color) (at_ : bool) :
  fill_style h s = Some fs -> px_a (image_data h fs) = 255 ->
  parseColor h (Some s) fb at_ =
  Ok (Parsed {| css := fs;
                rgba := toRgba (px_r (image_data h fs)) (px_g (image_data h fs))
                               (px_b (image_data h fs)) 0xFF |}) [].
Proof.
  intros E A. unfold parseColor. rewrite E, A. reflexivity.
Qed.

Lemma parseColor_opaque_canonical_witness :
  fill_style demo_host "#33669A" = Some "#33669a"%string /\
  parseColor demo_host (Some "#33669A") None false
  = Ok (Parsed {| css := "#33669a"; rgba := toRgba 0x33 0x66 0x9a 0xFF |}) [].
Proof.
  split; [reflexivity|].
  apply (parseColor_opaque_canonical demo_host "#33669A" "#33669a" None false);
    reflexivity.
Defined.


Lemma string_app_assoc (x y z : string) : ((x ++ y) ++ z = x ++ (y ++ z))%string.
Proof. induction x; simpl; congruence. Qed.

Lemma string_app_nil_r (x : string) : (x ++ "")%string = x.
Proof. induction x; simpl; congruence. Qed.

Lemma string_length_app (x y : string) :
  String.length (x ++ y) = (String.length x + String.length y)%nat.
Proof. induction x; simpl; congruence. Qed.

Lemma substring_app_skip (x y : string) (n m : nat) :
  substring (String.length x + n) m (x ++ y) = substring n m y.
Proof. induction x; simpl; auto. Qed.

Lemma substring_app_prefix (x y : string) :
  substring 0 (String.length x) (x ++ y) = x.
Proof. induction x; simpl; [destruct y; reflexivity | congruence]. Qed.

Lemma js_split_aux_last (sep : ascii) (x cur : string) :
  has_char sep x = false -> js_split_aux sep x cur = [(cur ++ x)%string].
Proof.
  revert cur; induction x as [|c x IH]; intros cur H; simpl in *.
  - rewrite string_app_nil_r. reflexivity.
  - apply orb_false_iff in H as [H1 H2]. rewrite H1, IH by exact H2.
    rewrite string_app_assoc. reflexivity.
Qed.

Lemma js_split_aux_sep (sep : ascii) (x rest cur : string) :
  has_char sep x = false ->
  js_split_aux sep (x ++ String sep rest) cur = (cur ++ x)%string :: js_split_aux sep rest "".
Proof.
  revert cur; induction x as [|c x IH]; intros cur H; simpl in *.
  - rewrite Ascii.eqb_refl, string_app_nil_r. reflexivity.
  - apply orb_false_iff in H as [H1 H2]. rewrite H1, IH by exact H2.
    rewrite string_app_assoc. reflexivity.
Qed.

Lemma js_to_int32_Z (z : Z) : js_to_int32 (Some (inject_Z z)) = z.
Proof.
  unfold js_to_int32. destruct (Qlt_le_dec (inject_Z z) 0).
  - apply Qceiling_Z.
  - apply Qfloor_Z.
Qed.

Lemma js_round_255_bounds (a : Q) :
  (0 <= a <= 1)%Q -> 0 <= js_round (a * 255) <= 255.
Proof.
  intros [H0 H1]. unfold js_round. split.
  - change 0 with (Qfloor 0). apply Qfloor_resp_le.
    apply (Qle_trans _ (0 * 255 + 0)); [discriminate|].
    apply Qplus_le_compat; [apply Qmult_le_compat_r|]; [assumption|discriminate|discriminate].
  - change 255 with (Qfloor (1 * 255 + (1 # 2))). apply Qfloor_resp_le.
    apply Qplus_le_compat; [apply Qmult_le_compat_r|]; [assumption|discriminate|apply Qle_refl].
Qed.

Lemma js_split_rgba_components (sr sg sb sa : string) :
  has_char "," sr = false -> has_char "," sg = false -> has_char "," sb = false ->
  has_char "," sa = false ->
  js_split "," (sr ++ "," ++ sg ++ "," ++ sb ++ "," ++ sa) = [sr; sg; sb; sa].
Proof.
  intros Hr Hg Hb Ha. unfold js_split. cbn [append].
  rewrite (js_split_aux_sep _ sr) by exact Hr.
  rewrite (js_split_aux_sep _ sg) by exact Hg.
  rewrite (js_split_aux_sep _ sb) by exact Hb.
  rewrite (js_split_aux_last _ sa) by exact Ha.
  reflexivity.
Qed.

Lemma js_substring_rgba_body (x : string) :
  let fs := "rgba(" ++ x ++ ")" in
  js_substring fs 5 (Z.of_nat (String.length fs) - 1) = x.
Proof.
  intro fs. unfold js_substring, fs.
  rewrite !string_length_app. cbn [String.length].
  replace (Z.max 0 (Z.min 5 (Z.of_nat (5 + (String.length x + 1)))))
    with (Z.of_nat (5 + 0)) by lia.
  replace (Z.max 0 (Z.min (Z.of_nat (5 + (String.length x + 1)) - 1)
                          (Z.of_nat (5 + (String.length x + 1)))))
    with (Z.of_nat (5 + String.length x)) by lia.
  rewrite Z.min_l, Z.max_r by lia.
  rewrite Nat2Z.id.
  replace (Z.to_nat (Z.of_nat (5 + String.length x) - Z.of_nat (5 + 0)))
    with (String.length x) by lia.
  change (substring (String.length "rgba(" + 0) (String.length x) ("rgba(" ++ (x ++ ")"))
          = x).
  rewrite substring_app_skip. apply substring_app_prefix.
Qed.

(** C7. A string the engine accepts and paints translucent, with
    transparency allowed, gives a colour whose CSS is the input string itself
    and whose packed value is built from the components [r, g, b, a] of the
    engine's serialisation [rgba(r, g, b, a)], the alpha byte being
    [Math.round(a * 255)], an integer of [0..255]. *)
Theorem parseColor_translucent_keeps_input (h : Host) (s sr sg sb sa : string)
    (fb : option Color) (r g b : Z) (a : Q) :
  let fs := "rgba(" ++ (sr ++ "," ++ sg ++ "," ++ sb ++ "," ++ sa) ++ ")" in
  fill_style h s = Some fs ->
  px_a (image_data h fs) <> 255 ->
  has_char "," sr = false -> has_char "," sg = false -> has_char "," sb = false ->
  has_char "," sa = false ->
  js_Number sr = Some (inject_Z r) -> js_Number sg = Some (inject_Z g) ->
  js_Number sb = Some (inject_Z b) -> js_Number sa = Some a ->
  0 <= r < 256 -> 0 <= g < 256 -> 0 <= b < 256 -> (0 <= a <= 1)%Q ->
  parseColor h (Some s) fb true =
    Ok (Parsed {| css := s; rgba := r * 2 ^ 24 + g * 2 ^ 16 + b * 2 ^ 8 + js_round (a * 255) |}) []
  /\ 0 <= js_round (a * 255) <= 255.
Proof.
  intros fs E A Cr Cg Cb Ca Nr Ng Nb Na Br Bg Bb Ba.
  pose proof (js_round_255_bounds a Ba) as Bα.
  split; [|exact Bα].
  unfold parseColor. rewrite E. apply Z.eqb_neq in A. rewrite A. cbn [negb].
  unfold fs. rewrite js_substring_rgba_body, js_split_rgba_components by assumption.
  cbn [map nth_error]. rewrite Nr, Ng, Nb, Na. cbn [js_round_255].
  rewrite !js_to_int32_Z, toRgba_pack by lia. reflexivity.
Qed.

Lemma parseColor_translucent_keeps_input_witness :
  fill_style demo_host "rgba(51,102,153,.5)" = Some "rgba(51, 102, 153, 0.5)" /\
  parseColor demo_host (Some "rgba(51,102,153,.5)") None true
  = Ok (Parsed {| css := "rgba(51,102,153,.5)"; rgba := 0x33669980 |}) [].
Proof.
  split; [reflexivity|].
  destruct (parseColor_translucent_keeps_input demo_host "rgba(51,102,153,.5)"
              "51" " 102" " 153" " 0.5" None 51 102 153 (5 # 10)
              eq_refl ltac:(vm_compute; discriminate) eq_refl eq_refl eq_refl eq_refl
              eq_refl eq_refl eq_refl eq_refl ltac:(lia) ltac:(lia) ltac:(lia)
              ltac:(split; discriminate)) as [E _].
  rewrite E. reflexivity.
Defined.

(* ------------------------------------------------------------------------- *)
(** ** Arrays *)

Lemma js_set_nth (a : JsArray) (i : Z) (x : option Color) (n : nat) :
  0 <= i ->
  nth_error (js_set a i x) n =
  if (n =? Z.to_nat i)%nat then Some x
  else if (n <? List.length a)%nat then nth_error a n
  else if (n <? Z.to_nat i)%nat then Some None else None.
Proof.
  intro Hi. unfold js_set. destruct (i <? 0) eqn:Hn; [apply Z.ltb_lt in Hn; lia|].
  set (k := Z.to_nat i).
  destruct (k <? List.length a)%nat eqn:L.
  - apply Nat.ltb_lt in L.
    assert (Lf : List.length (firstn k a) = k) by (rewrite length_firstn; lia).
    destruct (lt_eq_lt_dec n k) as [[Hlt|Heq]|Hgt].
    + rewrite nth_error_app1 by lia. rewrite nth_error_firstn.
      replace (n <? k)%nat with true by (symmetry; apply Nat.ltb_lt; lia).
      replace (n =? k)%nat with false by (symmetry; apply Nat.eqb_neq; lia).
      replace (n <? List.length a)%nat with true by (symmetry; apply Nat.ltb_lt; lia).
      reflexivity.
    + subst n. rewrite nth_error_app2 by lia. rewrite Lf, Nat.sub_diag, Nat.eqb_refl.
      reflexivity.
    + rewrite nth_error_app2 by lia. rewrite Lf.
      replace (n - k)%nat with (S (n - k - 1)) by lia. cbn [nth_error].
      rewrite nth_error_skipn. replace (S k + (n - k - 1))%nat with n by lia.
      replace (n =? k)%nat with false by (symmetry; apply Nat.eqb_neq; lia).
      replace (n <? k)%nat with false by (symmetry; apply Nat.ltb_ge; lia).
      destruct (n <? List.length a)%nat eqn:L2; [reflexivity|].
      apply Nat.ltb_ge in L2. apply nth_error_None. lia.
  - apply Nat.ltb_ge in L.
    destruct (Nat.lt_ge_cases n (List.length a)) as [H1|H1].
    + rewrite nth_error_app1 by lia.
      replace (n =? k)%nat with false by (symmetry; apply Nat.eqb_neq; lia).
      replace (n <? List.length a)%nat with true by (symmetry; apply Nat.ltb_lt; lia).
      reflexivity.
    + rewrite nth_error_app2 by lia.
      replace (n <? List.length a)%nat with false by (symmetry; apply Nat.ltb_ge; lia).
      destruct (lt_eq_lt_dec n k) as [[Hlt|Heq]|Hgt].
      * rewrite nth_error_app1 by (rewrite repeat_length; lia).
        rewrite nth_error_repeat by lia.
        replace (n =? k)%nat with false by (symmetry; apply Nat.eqb_neq; lia).
        replace (n <? k)%nat with true by (symmetry; apply Nat.ltb_lt; lia).
        reflexivity.
      * subst n. rewrite nth_error_app2 by (rewrite repeat_length; lia).
        rewrite repeat_length, Nat.eqb_refl.
        replace (k - List.length a - (k - List.length a))%nat with 0%nat by lia.
        reflexivity.
      * replace (n =? k)%nat with false by (symmetry; apply Nat.eqb_neq; lia).
        replace (n <? k)%nat with false by (symmetry; apply Nat.ltb_ge; lia).
        apply nth_error_None. rewrite length_app, repeat_length. simpl. lia.
Qed.

Lemma js_get_set (a : JsArray) (i j : Z) (x : option Color) :
  0 <= i -> js_get (js_set a i x) j = if j =? i then x else js_get a j.
Proof.
  intro Hi. unfold js_get.
  destruct (j <? 0) eqn:Hj.
  - apply Z.ltb_lt in Hj. replace (j =? i) with false by (symmetry; apply Z.eqb_neq; lia).
    reflexivity.
  - apply Z.ltb_ge in Hj. rewrite js_set_nth by exact Hi.
    destruct (j =? i) eqn:E.
    + apply Z.eqb_eq in E. subst j. rewrite Nat.eqb_refl. reflexivity.
    + apply Z.eqb_neq in E.
      replace (Z.to_nat j =? Z.to_nat i)%nat with false by (symmetry; apply Nat.eqb_neq; lia).
      destruct (Z.to_nat j <? List.length a)%nat eqn:L; [reflexivity|].
      apply Nat.ltb_ge in L. rewrite (proj2 (nth_error_None a (Z.to_nat j))) by exact L.
      destruct (Z.to_nat j <? Z.to_nat i)%nat; reflexivity.
Qed.

Lemma js_set_neg (a : JsArray) (i : Z) (x : option Color) : i < 0 -> js_set a i x = a.
Proof. intro H. unfold js_set. apply Z.ltb_lt in H. rewrite H. reflexivity. Qed.

Lemma js_set_length (a : JsArray) (i : Z) (x : option Color) :
  0 <= i -> List.length (js_set a i x) = Nat.max (List.length a) (S (Z.to_nat i)).
Proof.
  intro Hi. unfold js_set. destruct (i <? 0) eqn:Hn; [apply Z.ltb_lt in Hn; lia|].
  destruct (Z.to_nat i <? List.length a)%nat eqn:L.
  - apply Nat.ltb_lt in L. rewrite length_app, length_firstn. cbn [List.length].
    rewrite length_skipn. lia.
  - apply Nat.ltb_ge in L. rewrite !length_app, repeat_length. cbn [List.length]. lia.
Qed.

(** Two arrays with the same length and the same elements are equal. *)
Lemma js_array_ext (a b : JsArray) :
  List.length a = List.length b -> (forall j, 0 <= j -> js_get a j = js_get b j) -> a = b.
Proof.
  intros L H. apply nth_error_ext. intro n.
  specialize (H (Z.of_nat n) ltac:(lia)). unfold js_get in H.
  replace (Z.of_nat n <? 0) with false in H by (symmetry; apply Z.ltb_ge; lia).
  rewrite Nat2Z.id in H.
  destruct (nth_error a n) eqn:Ea, (nth_error b n) eqn:Eb; subst; try reflexivity.
  - apply nth_error_None in Eb.
    assert (n < List.length a)%nat by (apply nth_error_Some; congruence). lia.
  - apply nth_error_None in Ea.
    assert (n < List.length b)%nat by (apply nth_error_Some; congruence). lia.
Qed.

Definition nonneg_writes (W : list (Z * option Color)) : Prop := Forall (fun w => 0 <= fst w) W.

Lemma apply_writes_app (W1 W2 : list (Z * option Color)) (a : JsArray) :
  apply_writes (W1 ++ W2) a = apply_writes W2 (apply_writes W1 a).
Proof. unfold apply_writes. apply fold_left_app. Qed.

Lemma js_get_apply (W : list (Z * option Color)) (a : JsArray) (j : Z) :
  nonneg_writes W ->
  js_get (apply_writes W a) j = match last_write W j with Some x => x | None => js_get a j end.
Proof.
  revert a; induction W as [|w W IH]; intros a HW; [reflexivity|].
  inversion HW as [|? ? Hw HW']; subst.
  cbn [apply_writes fold_left last_write]. fold (apply_writes W (js_set a (fst w) (snd w))).
  rewrite IH by exact HW'.
  destruct (last_write W j); [reflexivity|].
  rewrite js_get_set by exact Hw. rewrite Z.eqb_sym. destruct (fst w =? j); reflexivity.
Qed.

Lemma reach_max (W : list (Z * option Color)) (n : nat) :
  reach W n = Nat.max n (reach W 0).
Proof.
  unfold reach. revert n. induction W as [|w W IH]; intro n; cbn [fold_left]; [lia|].
  rewrite IH, (IH (Nat.max 0 _)). lia.
Qed.

Lemma length_apply (W : list (Z * option Color)) (a : JsArray) :
  nonneg_writes W -> List.length (apply_writes W a) = reach W (List.length a).
Proof.
  revert a; induction W as [|w W IH]; intros a HW; [reflexivity|].
  inversion HW as [|? ? Hw HW']; subst.
  cbn [apply_writes fold_left]. fold (apply_writes W (js_set a (fst w) (snd w))).
  rewrite IH by exact HW'. rewrite js_set_length by exact Hw. reflexivity.
Qed.

(** Running the same assignments twice is running them once. *)
Lemma apply_writes_idem (W : list (Z * option Color)) (a : JsArray) :
  nonneg_writes W -> apply_writes W (apply_writes W a) = apply_writes W a.
Proof.
  intro HW. apply js_array_ext.
  - rewrite !length_apply by exact HW. rewrite (reach_max W (reach W _)),
      (reach_max W (List.length a)). lia.
  - intros j _. rewrite !js_get_apply by exact HW. destruct (last_write W j); reflexivity.
Qed.

(* ------------------------------------------------------------------------- *)
(** ** Palette assignments of [setTheme] *)

Lemma writes_ok_nonneg (W : list (Z * option Color)) : writes_ok W -> nonneg_writes W.
Proof. apply Forall_impl. intros w [H _]. exact H. Qed.

Lemma with_ansi_self (x : ColorSet) : with_ansi x (ansi x) = x.
Proof. destruct x; reflexivity. Qed.

Lemma ansi_written_nil (s : State) : ansi_written [] s s.
Proof. repeat split. cbn. symmetry. apply with_ansi_self. Qed.

Lemma ansi_written_trans (W1 W2 : list (Z * option Color)) (s1 s2 s3 : State) :
  ansi_written W1 s1 s2 -> ansi_written W2 s2 s3 -> ansi_written (app W1 W2) s1 s3.
Proof.
  intros (C1 & A1 & K1 & R1 & E1) (C2 & A2 & K2 & R2 & E2).
  repeat split; try congruence.
  rewrite E2, E1, apply_writes_app. reflexivity.
Qed.

Lemma parseColor_defined (h : Host) (x : option string) (fb : Color) (at_ : bool) :
  exists p l, parseColor h x (Some fb) at_ = Ok p l.
Proof.
  unfold parseColor, warn_with. destruct x as [s|]; [|eauto].
  destruct (fill_style h s) as [fs|]; [|eauto].
  cbn zeta. destruct (negb (px_a (image_data h fs) =? 255)), at_; cbn; eauto.
Qed.

Lemma default_ansi_defined (i : Z) : 0 <= i < 256 -> exists d, default_ansi i = Some d.
Proof.
  intro Hi. unfold default_ansi. replace (i <? 0) with false by (symmetry; apply Z.ltb_ge; lia).
  destruct (nth_error DEFAULT_ANSI_COLORS (Z.to_nat i)) eqn:E; [eauto|].
  apply nth_error_None in E. change (List.length DEFAULT_ANSI_COLORS) with 256%nat in E. lia.
Qed.

Lemma shaped_ret (h : Host) (at_ : bool) : shaped h at_ (ret tt) [] false.
Proof. intros s _ _. split; [reflexivity | apply ansi_written_nil]. Qed.

Lemma shaped_seq (h : Host) (at_ : bool) (m k : M unit) W1 W2 t :
  shaped h at_ m W1 false -> shaped h at_ k W2 t -> shaped h at_ (m ;; k) (app W1 W2) t.
Proof.
  intros Hm Hk s Hc Ha. specialize (Hm s Hc Ha). unfold bind.
  destruct (m s) as [s1 []|s1]; destruct Hm as [Ht Hw]; [|discriminate].
  destruct Hw as (C1 & A1 & Hw). specialize (Hk s1 ltac:(congruence) ltac:(congruence)).
  destruct (k s1) as [s2 u|s2]; destruct Hk as [Ht' Hw'];
    (split; [exact Ht' | eapply ansi_written_trans; [split|]; eauto]).
Qed.

Lemma shaped_seq_thrown (h : Host) (at_ : bool) (m k : M unit) W1 :
  shaped h at_ m W1 true -> shaped h at_ (m ;; k) W1 true.
Proof.
  intros Hm s Hc Ha. specialize (Hm s Hc Ha). unfold bind.
  destruct (m s) as [s1 u|s1]; destruct Hm as [Ht Hw]; [discriminate|]. auto.
Qed.

Ltac zbool :=
  repeat match goal with
  | H : (_ <=? _) = true |- _ => apply Z.leb_le in H
  | H : (_ <=? _) = false |- _ => apply Z.leb_gt in H
  | H : (_ <? _) = true |- _ => apply Z.ltb_lt in H
  | H : (_ <? _) = false |- _ => apply Z.ltb_ge in H
  | H : (_ =? _) = true |- _ => apply Z.eqb_eq in H
  | H : (_ =? _) = false |- _ => apply Z.eqb_neq in H
  end.

(** The branches of [restoreColor slot], in the order of its [switch]:
    [FOREGROUND], [BACKGROUND], [CURSOR], a palette index, then no slot. *)
Ltac slot_cases slot :=
  destruct slot as [i|];
  [ destruct (i =? FOREGROUND) eqn:Hfg;
    [| destruct (i =? BACKGROUND) eqn:Hbg; [| destruct (i =? CURSOR) eqn:Hcu]] | ].

Lemma last_write_app (W1 W2 : list (Z * option Color)) (j : Z) :
  last_write (app W1 W2) j =
  match last_write W2 j with Some x => Some x | None => last_write W1 j end.
Proof.
  induction W1 as [|w W1 IH]; cbn [app last_write].
  - destruct (last_write W2 j); reflexivity.
  - rewrite IH. destruct (last_write W2 j); reflexivity.
Qed.

Lemma parse_ansi_shaped (h : Host) (at_ : bool) (i : Z) (x : option string) :
  0 <= i ->
  exists W, writes_ok W /\ shaped h at_ (parse_ansi i x) W (throws_at h at_ i x) /\
            (i < 256 -> throws_at h at_ i x = false) /\ Forall (fun w => fst w = i) W /\
            (throws_at h at_ i x = false -> W = [(i, resolved_entry h at_ i x)]).
Proof.
  intro Hi. unfold throws_at, resolved_entry.
  destruct (parseColor h x (default_ansi i) at_) as [p l|] eqn:E.
  - exists [(i, value_of (default_ansi i) Some p)].
    split; [|split; [|split; [auto | split; [repeat constructor | auto]]]].
    + constructor; [|constructor]. cbn [fst snd]. split; [exact Hi|].
      intro H. destruct (default_ansi_defined i ltac:(lia)) as [d Hd].
      rewrite Hd. destruct p; discriminate.
    + intros s Hc Ha. unfold parse_ansi, bind, _parseColor. rewrite Hc, Ha, E.
      split; [reflexivity|]. destruct s as [cs h' at' cc rc con]. repeat split.
  - exists []. split; [constructor|]. split; [|split; [|split; [constructor | discriminate]]].
    + intros s Hc Ha. unfold parse_ansi, bind, _parseColor. rewrite Hc, Ha, E.
      split; [reflexivity | apply ansi_written_nil].
    + intro H. destruct (default_ansi_defined i ltac:(lia)) as [d Hd].
      rewrite Hd in E. destruct (parseColor_defined h x d at_) as (p & l & E').
      congruence.
Qed.

(** A loop whose iteration [i] assigns [f i] to index [i], or throws iff [g i]. *)
Lemma for_range_exact (h : Host) (at_ : bool) (body : Z -> M unit) (g : Z -> bool)
    (f : Z -> option Color) :
  (forall i, 0 <= i -> exists W, writes_ok W /\ shaped h at_ (body i) W (g i) /\
     (i < 256 -> g i = false) /\ (g i = false -> W = [(i, f i)])) ->
  forall n start, 0 <= start ->
  exists W t, writes_ok W /\ shaped h at_ (for_range start n body) W t /\
    (t = true <-> exists i, start <= i < start + Z.of_nat n /\ g i = true) /\
    (t = false -> forall j, last_write W j =
       if (start <=? j) && (j <? start + Z.of_nat n) then Some (f j) else None).
Proof.
  intros Hb n. induction n as [|n IH]; intros start Hs.
  - exists [], false. split; [constructor|]. split; [apply shaped_ret|]. split.
    + split; [discriminate | intros (i & Hi & _); lia].
    + intros _ j. cbn [last_write].
      destruct (start <=? j) eqn:A, (j <? start + Z.of_nat 0) eqn:B; cbn [andb]; try reflexivity.
      zbool; lia.
  - destruct (Hb start Hs) as (W1 & Ok1 & S1 & T1 & X1). cbn [for_range].
    case_eq (g start); intro G; rewrite G in S1.
    + exists W1, true. split; [exact Ok1|]. split; [apply shaped_seq_thrown, S1|]. split.
      * split; [intros _; exists start; split; [lia | exact G] | reflexivity].
      * discriminate.
    + specialize (X1 G).
      destruct (IH (start + 1) ltac:(lia)) as (W2 & t2 & Ok2 & S2 & T2 & X2).
      exists (app W1 W2), t2. split; [apply Forall_app; auto|]. split; [apply shaped_seq; auto|].
      split.
      * rewrite T2. split; intros (i & Hi & Gi); exists i; split; try exact Gi; try lia.
        destruct (Z.eq_dec i start) as [->|]; [congruence | lia].
      * intros Ht j. rewrite last_write_app, (X2 Ht j), X1. cbn [last_write fst snd].
        destruct (start + 1 <=? j) eqn:A, (j <? start + 1 + Z.of_nat n) eqn:B,
                 (start =? j) eqn:C, (start <=? j) eqn:D, (j <? start + Z.of_nat (S n)) eqn:E;
          cbn [andb]; try reflexivity; zbool; try lia; try (subst; reflexivity).
Qed.

Lemma parse_base_shaped (h : Host) (at_ : bool) (xs : list (option string)) :
  forall i, 0 <= i -> i + Z.of_nat (List.length xs) <= 256 ->
  exists W, writes_ok W /\ shaped h at_ (parse_base i xs) W false /\
    Forall (fun w => i <= fst w < i + Z.of_nat (List.length xs)) W /\
    forall j, last_write W j =
      if (i <=? j) && (j <? i + Z.of_nat (List.length xs))
      then Some (resolved_entry h at_ j (nth (Z.to_nat (j - i)) xs None)) else None.
Proof.
  induction xs as [|x xs IH]; intros i Hi Hl.
  - exists []. split; [constructor | split; [apply shaped_ret | split; [constructor|]]].
    intro j. cbn [last_write List.length].
    destruct (i <=? j) eqn:A, (j <? i + Z.of_nat 0) eqn:B; cbn [andb]; try reflexivity.
    zbool; lia.
  - cbn [List.length] in *.
    destruct (parse_ansi_shaped h at_ i x Hi) as (W1 & Ok1 & S1 & T1 & I1 & X1).
    rewrite (T1 ltac:(lia)) in S1, X1. specialize (X1 eq_refl).
    destruct (IH (i + 1) ltac:(lia) ltac:(lia)) as (W2 & Ok2 & S2 & I2 & L2).
    exists (app W1 W2). split; [apply Forall_app; auto | split; [apply shaped_seq; auto|]].
    split; [apply Forall_app; split; [revert I1 | revert I2]; apply Forall_impl; intros w Hw; lia|].
    intro j. rewrite last_write_app, L2, X1. cbn [last_write fst snd].
    destruct (i + 1 <=? j) eqn:A, (j <? i + 1 + Z.of_nat (List.length xs)) eqn:B,
             (i =? j) eqn:C, (i <=? j) eqn:D, (j <? i + Z.of_nat (S (List.length xs))) eqn:E;
      cbn [andb]; try reflexivity; zbool; try lia.
    all: first [ subst j; rewrite Z.sub_diag; reflexivity
               | replace (Z.to_nat (j - i)) with (S (Z.to_nat (j - (i + 1)))) by lia; reflexivity ].
Qed.

Lemma shaped_cases (h : Host) (at_ : bool) (m : M unit) W t (k : unit -> M unit) (s : State) :
  shaped h at_ m W t -> ctx s = h -> allowTransparency s = at_ ->
  exists s', ansi_written W s s' /\
    (t = false /\ bind m k s = k tt s' \/ t = true /\ bind m k s = Thrown s').
Proof.
  intros Hm Hc Ha. specialize (Hm s Hc Ha). unfold bind.
  destruct (m s) as [s' []|s']; destruct Hm as [Ht Hw]; eauto.
Qed.

Lemma extended_shaped (h : Host) (at_ : bool) (ext : option (list string)) :
  exists W t, writes_ok W /\ shaped h at_
    (match ext with
     | Some ext =>
         let colorCount := Z.max (Z.of_nat (List.length ext) + 16) 256 in
         for_range 16 (Z.to_nat (colorCount - 16))
           (fun i => parse_ansi i (nth_error ext (Z.to_nat (i - 16))))
     | None => ret tt
     end) W t /\ (ext = None -> W = []) /\
    (t = true <-> match ext with
                  | Some e =>
                      exists i, 16 <= i < Z.max (Z.of_nat (List.length e) + 16) 256 /\
                                throws_at h at_ i (nth_error e (Z.to_nat (i - 16))) = true
                  | None => False
                  end) /\
    (t = false -> forall j, last_write W j =
       match ext with
       | Some e =>
           if (16 <=? j) && (j <? Z.max (Z.of_nat (List.length e) + 16) 256)
           then Some (resolved_entry h at_ j (nth_error e (Z.to_nat (j - 16))))
           else None
       | None => None
       end).
Proof.
  destruct ext as [e|].
  - destruct (for_range_exact h at_ (fun i => parse_ansi i (nth_error e (Z.to_nat (i - 16))))
                (fun i => throws_at h at_ i (nth_error e (Z.to_nat (i - 16))))
                (fun i => resolved_entry h at_ i (nth_error e (Z.to_nat (i - 16)))))
      with (start := 16) (n := Z.to_nat (Z.max (Z.of_nat (List.length e) + 16) 256 - 16))
      as (W & t & Ok & S & T & X); [| lia |].
    + intros i Hi.
      destruct (parse_ansi_shaped h at_ i (nth_error e (Z.to_nat (i - 16))) Hi)
        as (W & Ok & S & T & _ & X).
      exists W. cbv beta. repeat split; assumption.
    + replace (16 + Z.of_nat (Z.to_nat (Z.max (Z.of_nat (List.length e) + 16) 256 - 16)))
        with (Z.max (Z.of_nat (List.length e) + 16) 256) in T, X by lia.
      exists W, t. split; [exact Ok|]. split; [exact S|]. split; [discriminate|].
      split; [exact T | exact X].
  - exists [], false. split; [constructor|]. split; [apply shaped_ret|]. split; [reflexivity|].
    split; [split; [discriminate | intros []] | intros _ j; reflexivity].
Qed.

(** The statements of [setTheme] after the selection colour is settled. *)
Lemma setTheme_tail (th : ITheme.t) (h : Host) (at_ : bool) :
  exists W t, writes_ok W /\
  (ITheme.extendedAnsi th = None -> Forall (fun w => fst w < 16) W) /\
  (t = false -> forall j, last_write W j = theme_entry h at_ th j) /\
  (t = true <-> ext_throws h at_ th) /\
  forall (s1 s : State), ctx s1 = h -> allowTransparency s1 = at_ ->
    colors s1 = theme_colors h at_ th (ansi (colors s)) ->
    ctx s = h -> allowTransparency s = at_ ->
    contrastCache s1 = contrastCache s -> restoreColors s1 = restoreColors s ->
    theme_post h at_ th W t s
      ((parse_base 0 (ITheme.base16 th) ;;
        (match ITheme.extendedAnsi th with
         | Some ext =>
             let colorCount := Z.max (Z.of_nat (List.length ext) + 16) 256 in
             for_range 16 (Z.to_nat (colorCount - 16))
               (fun i => parse_ansi i (nth_error ext (Z.to_nat (i - 16))))
         | None => ret tt
         end) ;;
        modify (fun s => set_contrastCache (cache_clear (contrastCache s)) s) ;;
        _updateRestoreColors) s1).
Proof.
  destruct (parse_base_shaped h at_ (ITheme.base16 th) 0 ltac:(lia) ltac:(cbn; lia))
    as (W1 & Ok1 & S1 & I1 & L1).
  destruct (extended_shaped h at_ (ITheme.extendedAnsi th))
    as (W2 & t & Ok2 & S2 & N2 & T2 & X2).
  exists (app W1 W2), t. split; [apply Forall_app; auto|]. split.
  { intro N. rewrite (N2 N), app_nil_r. revert I1. apply Forall_impl. cbn. intros w Hw. lia. }
  split.
  { intros Ht j. rewrite last_write_app, (X2 Ht j), L1. unfold theme_entry.
    change (0 + Z.of_nat (List.length (ITheme.base16 th))) with 16. rewrite Z.sub_0_r.
    destruct (ITheme.extendedAnsi th) as [e|]; [|reflexivity].
    destruct (0 <=? j) eqn:A, (j <? 16) eqn:B, (16 <=? j) eqn:C,
      (j <? Z.max (Z.of_nat (List.length e) + 16) 256) eqn:D;
      cbn [andb]; try reflexivity; zbool; lia. }
  split; [exact T2|].
  intros s1 s Hc1 Ha1 Hx Hc Ha Hk Hr.
  match goal with |- theme_post _ _ _ _ _ _ (bind _ ?k _) =>
    destruct (shaped_cases h at_ _ _ _ k s1 S1 Hc1 Ha1)
      as (s2 & (C2 & A2 & K2 & R2 & X2') & [[_ E]|[E _]]); [|discriminate] end.
  rewrite E. cbv beta.
  match goal with |- theme_post _ _ _ _ _ _ (bind _ ?k _) =>
    destruct (shaped_cases h at_ _ _ _ k s2 S2 ltac:(congruence) ltac:(congruence))
    as (s3 & (C3 & A3 & K3 & R3 & X3) & [[Ht E']|[Ht E']]) end; rewrite E'; clear E E'.
  - unfold theme_post, modify, _updateRestoreColors. cbn.
    rewrite X3, X2', Hx, apply_writes_app. cbn. repeat split; auto; congruence.
  - unfold theme_post. cbn [final].
    rewrite X3, X2', Hx, apply_writes_app. cbn. repeat split; auto; congruence.
Qed.

Lemma bind_parseColor_ok {B} (input : option string) (fb : option Color) (allow : option bool)
    (k : ParseOut -> M B) (s : State) (p : ParseOut) (l : list string) :
  parseColor (ctx s) input fb (match allow with Some b => b | None => allowTransparency s end)
    = Ok p l ->
  bind (_parseColor input fb allow) k s = k p (log_lines l s).
Proof. intro E. unfold bind, _parseColor. rewrite E. reflexivity. Qed.

Lemma bind_update_colors {B} (f : ColorSet -> ColorSet) (k : unit -> M B) (s : State) :
  bind (update_colors f) k s = k tt (set_colors (f (colors s)) s).
Proof. reflexivity. Qed.

Lemma bind_get {B} (k : State -> M B) (s : State) : bind get k s = k s s.
Proof. reflexivity. Qed.

Lemma bind_bind {A B C} (m : M A) (f : A -> M B) (k : B -> M C) (s : State) :
  bind (bind m f) k s = bind m (fun x => bind (f x) k) s.
Proof. unfold bind. destruct (m s); reflexivity. Qed.

Lemma bind_ret {A B} (a : A) (k : A -> M B) (s : State) : bind (ret a) k s = k a s.
Proof. reflexivity. Qed.

Ltac parse_step p l :=
  rewrite (bind_parseColor_ok _ _ _ _ _ p l)
    by (cbn [ctx allowTransparency set_colors log_lines]; congruence);
  cbv beta.

Ltac fields :=
  cbn [colors ctx allowTransparency contrastCache restoreColors set_colors log_lines
       assign_foreground assign_background assign_cursor assign_cursorAccent
       assign_selectionTransparent assign_selectionOpaque assign_selectionForeground
       foreground background cursor cursorAccent selectionTransparent selectionOpaque
       selectionForeground ansi].

Ltac state_step :=
  repeat first [ rewrite bind_update_colors | rewrite bind_get | rewrite bind_ret ]; cbv beta.

Lemma theme_colors_of (h : Host) (at_ : bool) (th : ITheme.t) (a : JsArray) p1 l1 p2 l2 p3 l3 p4 l4 p5 l5
    (sf : option Color) :
  parseColor h (ITheme.foreground th) (Some DEFAULT_FOREGROUND) at_ = Ok p1 l1 ->
  parseColor h (ITheme.background th) (Some DEFAULT_BACKGROUND) at_ = Ok p2 l2 ->
  parseColor h (ITheme.cursor th) (Some DEFAULT_CURSOR) true = Ok p3 l3 ->
  parseColor h (ITheme.cursorAccent th) (Some DEFAULT_CURSOR_ACCENT) true = Ok p4 l4 ->
  parseColor h (ITheme.selection th) (Some DEFAULT_SELECTION) true = Ok p5 l5 ->
  match ITheme.selectionForeground th with
  | Some str =>
      if String.eqb str "" then None
      else match parseColor h (Some str) (Some nullColor) at_ with
           | Ok (Parsed c) _ => Some c
           | _ => None
           end
  | None => None
  end = sf ->
  theme_colors h at_ th a =
  {| foreground := value_of DEFAULT_FOREGROUND id p1;
     background := value_of DEFAULT_BACKGROUND id p2;
     cursor := value_of DEFAULT_CURSOR id p3;
     cursorAccent := value_of DEFAULT_CURSOR_ACCENT id p4;
     selectionTransparent :=
       if isOpaque (value_of DEFAULT_SELECTION id p5)
       then opacity (value_of DEFAULT_SELECTION id p5) (3 # 10)
       else value_of DEFAULT_SELECTION id p5;
     selectionOpaque := blend (value_of DEFAULT_BACKGROUND id p2) (value_of DEFAULT_SELECTION id p5);
     selectionForeground := sf;
     ansi := a |}.
Proof.
  intros E1 E2 E3 E4 E5 Esf. unfold theme_colors, resolved_selection.
  rewrite E1, E2, E3, E4, E5, Esf. reflexivity.
Qed.

(** [setTheme theme]: the fields it assigns, the palette assignments of its
    loops, the cache and the snapshot. *)
Lemma setTheme_spec_ext (th : ITheme.t) (h : Host) (at_ : bool) :
  exists W t, writes_ok W /\
  (ITheme.extendedAnsi th = None -> Forall (fun w => fst w < 16) W) /\
  (t = false -> forall j, last_write W j = theme_entry h at_ th j) /\
  (t = true <-> ext_throws h at_ th) /\
  forall s, ctx s = h -> allowTransparency s = at_ ->
    theme_post h at_ th W t s (setTheme th s).
Proof.
  destruct (setTheme_tail th h at_) as (W & t & Ok & I & X & T & Ht).
  exists W, t. split; [exact Ok|]. split; [exact I|]. split; [exact X|]. split; [exact T|].
  intros s Hc Ha.
  destruct (parseColor_defined h (ITheme.foreground th) DEFAULT_FOREGROUND at_) as (p1 & l1 & E1).
  destruct (parseColor_defined h (ITheme.background th) DEFAULT_BACKGROUND at_) as (p2 & l2 & E2).
  destruct (parseColor_defined h (ITheme.cursor th) DEFAULT_CURSOR true) as (p3 & l3 & E3).
  destruct (parseColor_defined h (ITheme.cursorAccent th) DEFAULT_CURSOR_ACCENT true)
    as (p4 & l4 & E4).
  destruct (parseColor_defined h (ITheme.selection th) DEFAULT_SELECTION true) as (p5 & l5 & E5).
  unfold setTheme.
  parse_step p1 l1. state_step. parse_step p2 l2. state_step.
  parse_step p3 l3. state_step. parse_step p4 l4. state_step.
  parse_step p5 l5. state_step.
  destruct (ITheme.selectionForeground th) as [str|] eqn:Esf;
    [destruct (String.eqb str "") eqn:Estr|].
  - state_step. fields.
    destruct (isOpaque (value_of DEFAULT_SELECTION id p5)) eqn:Eo; state_step;
      (apply Ht; fields; try congruence);
      rewrite (theme_colors_of h at_ th _ p1 l1 p2 l2 p3 l3 p4 l4 p5 l5 None E1 E2 E3 E4 E5)
        by (rewrite Esf, Estr; reflexivity);
      rewrite Eo; reflexivity.
  - destruct (parseColor_defined h (Some str) nullColor at_) as (p6 & l6 & E6).
    cbv iota. rewrite bind_bind. parse_step p6 l6. state_step. cbv iota.
    destruct p6 as [|c6]; state_step; fields.
    + destruct (isOpaque (value_of DEFAULT_SELECTION id p5)) eqn:Eo; state_step;
        (apply Ht; fields; try congruence);
        rewrite (theme_colors_of h at_ th _ p1 l1 p2 l2 p3 l3 p4 l4 p5 l5 None E1 E2 E3 E4 E5)
          by (rewrite Esf, Estr, E6; reflexivity);
        rewrite Eo; reflexivity.
    + destruct (isOpaque (value_of DEFAULT_SELECTION id p5)) eqn:Eo; state_step;
        (apply Ht; fields; try congruence);
        rewrite (theme_colors_of h at_ th _ p1 l1 p2 l2 p3 l3 p4 l4 p5 l5 (Some c6) E1 E2 E3 E4 E5)
          by (rewrite Esf, Estr, E6; reflexivity);
        rewrite Eo; reflexivity.
  - state_step. fields.
    destruct (isOpaque (value_of DEFAULT_SELECTION id p5)) eqn:Eo; state_step;
      (apply Ht; fields; try congruence);
      rewrite (theme_colors_of h at_ th _ p1 l1 p2 l2 p3 l3 p4 l4 p5 l5 None E1 E2 E3 E4 E5)
        by (rewrite Esf; reflexivity);
      rewrite Eo; reflexivity.
Qed.

Lemma setTheme_spec (th : ITheme.t) (h : Host) (at_ : bool) :
  exists W t, writes_ok W /\
  (ITheme.extendedAnsi th = None -> Forall (fun w => fst w < 16) W) /\
  forall s, ctx s = h -> allowTransparency s = at_ ->
    theme_post h at_ th W t s (setTheme th s).
Proof.
  destruct (setTheme_spec_ext th h at_) as (W & t & Ok & I & _ & _ & H).
  exists W, t. auto.
Qed.

Lemma theme_colors_ansi (h : Host) (at_ : bool) (th : ITheme.t) (a : JsArray) :
  ansi (theme_colors h at_ th a) = a.
Proof. reflexivity. Qed.

Lemma theme_colors_selection (h : Host) (at_ : bool) (th : ITheme.t) (a : JsArray) :
  selectionTransparent (theme_colors h at_ th a) =
  if isOpaque (resolved_selection h th) then opacity (resolved_selection h th) (3 # 10)
  else resolved_selection h th.
Proof. reflexivity. Qed.

(* ------------------------------------------------------------------------- *)
(** ** C10: idempotence of [setTheme] *)

(** C10: calling [setTheme theme] twice in a row leaves the same colour set,
    field by field and entry by entry of [ansi], as calling it once; this
    holds from every state, also when the call throws part-way. *)
Theorem setTheme_idempotent (th : ITheme.t) (s : State) :
  colors (run_op (OpSetTheme th) (run_op (OpSetTheme th) s)) = colors (run_op (OpSetTheme th) s).
Proof.
  destruct (setTheme_spec th (ctx s) (allowTransparency s)) as (W & t & Ok & _ & H).
  unfold run_op, op_method.
  destruct (H s eq_refl eq_refl) as (C1 & X1 & A1 & _).
  destruct (H (final (setTheme th s)) X1 A1) as (C2 & _).
  rewrite C2, C1, theme_colors_ansi, apply_writes_idem by (apply writes_ok_nonneg, Ok).
  reflexivity.
Qed.

(* ------------------------------------------------------------------------- *)
(** ** C4: an opaque selection colour is stored at 0.3 opacity *)

(** C4: when the theme's selection colour resolves (transparency allowed) to
    an opaque colour [c], [setTheme] leaves [selectionTransparent] equal to
    [opacity c 0.3]: the channels of [c] with the alpha byte
    [77 = round(0.3 * 255)], so never opaque. *)
Theorem setTheme_opaque_selection (th : ITheme.t) (s : State) (c : Color) (l : list string) :
  parseColor (ctx s) (ITheme.selection th) (Some DEFAULT_SELECTION) true = Ok (Parsed c) l ->
  isOpaque c = true ->
  let x := selectionTransparent (colors (run_op (OpSetTheme th) s)) in
  x = opacity c (3 # 10) /\ chan_a x = 77 /\ isOpaque x = false /\
  chan_r x = chan_r c /\ chan_g x = chan_g c /\ chan_b x = chan_b c.
Proof.
  intros E Ho. cbv zeta.
  destruct (setTheme_spec th (ctx s) (allowTransparency s)) as (W & t & Ok & _ & H).
  destruct (H s eq_refl eq_refl) as (C1 & _).
  unfold run_op, op_method. rewrite C1, theme_colors_selection.
  assert (Hs : resolved_selection (ctx s) th = c) by (unfold resolved_selection; rewrite E; reflexivity).
  rewrite Hs, Ho.
  destruct (chan_bounds c) as (Br & Bg & Bb & _).
  assert (Ha : js_round ((3 # 10) * 255) = 77) by reflexivity.
  destruct (chans_of_pack (chan_r c) (chan_g c) (chan_b c) 77 Br Bg Bb ltac:(lia))
    as (Er & Eg & Eb & Ea).
  unfold opacity. rewrite Ha. unfold isOpaque, chan_r, chan_g, chan_b, chan_a in *. cbn [rgba] in *.
  rewrite Er, Eg, Eb, Ea. repeat split; reflexivity.
Qed.

(** The theme [{selection: "#FFFFFF"}] on a fresh manager. *)
Lemma setTheme_opaque_selection_witness :
  let x := selectionTransparent
             (colors (run_op (OpSetTheme (theme_selection "#FFFFFF")) (construct demo_host false))) in
  x = opacity {| css := "#ffffff"; rgba := 0xFFFFFFFF |} (3 # 10) /\ chan_a x = 77 /\
  isOpaque x = false /\ chan_r x = 255 /\ chan_g x = 255 /\ chan_b x = 255.
Proof.
  exact (setTheme_opaque_selection (theme_selection "#FFFFFF") (construct demo_host false)
           {| css := "#ffffff"; rgba := 0xFFFFFFFF |} [] eq_refl eq_refl).
Defined.

(* ------------------------------------------------------------------------- *)
(** ** Palette size *)

Lemma last_write_in (W : list (Z * option Color)) (j : Z) (x : option Color) :
  last_write W j = Some x -> In (j, x) W.
Proof.
  induction W as [|w W IH]; cbn; [discriminate|].
  destruct (last_write W j) as [y|]; intro E.
  - right. apply IH. exact E.
  - left. destruct (fst w =? j) eqn:Ej; [|discriminate]. apply Z.eqb_eq in Ej.
    injection E as <-. destruct w; cbn in *; subst; reflexivity.
Qed.

Lemma apply_writes_palette (W : list (Z * option Color)) (a : JsArray) :
  writes_ok W -> palette_ok a -> palette_ok (apply_writes W a).
Proof.
  intros HW [L D]. pose proof (writes_ok_nonneg W HW) as HN. split.
  - rewrite length_apply by exact HN. rewrite reach_max. lia.
  - intros i Hi. rewrite js_get_apply by exact HN.
    destruct (last_write W i) as [x|] eqn:E; [|apply D; exact Hi].
    apply last_write_in in E. unfold writes_ok in HW; rewrite Forall_forall in HW.
    destruct (HW _ E) as [_ Hd]. apply Hd. cbn. lia.
Qed.

Lemma js_set_palette (a : JsArray) (i : Z) (x : option Color) :
  palette_ok a -> (0 <= i < 256 -> x <> None) -> palette_ok (js_set a i x).
Proof.
  intros [L D] Hx. destruct (Z.ltb_spec i 0) as [Hn|Hn].
  - rewrite js_set_neg by exact Hn. split; assumption.
  - split.
    + rewrite js_set_length by exact Hn. lia.
    + intros j Hj. rewrite js_get_set by exact Hn.
      destruct (Z.eqb_spec j i); [subst; apply Hx; exact Hj | apply D; exact Hj].
Qed.

Lemma with_ansi_assign (x : ColorSet) (i : Z) (c : option Color) (a : JsArray) :
  with_ansi (assign_ansi_at i c x) a = with_ansi x a.
Proof. destruct x; reflexivity. Qed.

Lemma restore_loop_fields (i : Z) (n : nat) (src : JsArray) (dst : ColorSet) :
  restore_loop i n src dst = with_ansi dst (ansi (restore_loop i n src dst)).
Proof.
  revert i dst; induction n as [|n IH]; intros i dst; cbn [restore_loop].
  - symmetry. apply with_ansi_self.
  - rewrite IH at 1. apply with_ansi_assign.
Qed.

Lemma restore_loop_get (i : Z) (n : nat) (src : JsArray) (dst : ColorSet) (j : Z) :
  0 <= i ->
  js_get (ansi (restore_loop i n src dst)) j =
  if (i <=? j) && (j <? i + Z.of_nat n) then js_get src j else js_get (ansi dst) j.
Proof.
  revert i dst; induction n as [|n IH]; intros i dst Hi; cbn [restore_loop].
  - change (Z.of_nat 0) with 0. rewrite Z.add_0_r.
    destruct (Z.leb_spec i j), (Z.ltb_spec j i); cbn; try lia; reflexivity.
  - rewrite IH by lia. cbn [ansi assign_ansi_at]. rewrite js_get_set by exact Hi.
    destruct (Z.leb_spec (i + 1) j), (Z.ltb_spec j (i + 1 + Z.of_nat n)),
      (Z.leb_spec i j), (Z.ltb_spec j (i + Z.of_nat (S n))), (Z.eqb_spec j i);
      cbn; subst; try lia; reflexivity.
Qed.

Lemma restore_loop_length (i : Z) (n : nat) (src : JsArray) (dst : ColorSet) :
  0 <= i -> (List.length (ansi dst) <= List.length (ansi (restore_loop i n src dst)))%nat.
Proof.
  revert i dst; induction n as [|n IH]; intros i dst Hi; cbn [restore_loop]; [lia|].
  etransitivity; [|apply IH; lia]. cbn [ansi assign_ansi_at].
  rewrite js_set_length by exact Hi. lia.
Qed.

Lemma restore_loop_palette (n : nat) (src : JsArray) (dst : ColorSet) :
  palette_ok src -> palette_ok (ansi dst) -> palette_ok (ansi (restore_loop 0 n src dst)).
Proof.
  intros [_ Ds] [Ld Dd]. split.
  - pose proof (restore_loop_length 0 n src dst ltac:(lia)). lia.
  - intros j Hj. rewrite restore_loop_get by lia.
    destruct ((0 <=? j) && (j <? 0 + Z.of_nat n)); [apply Ds | apply Dd]; exact Hj.
Qed.

Lemma palettes_ok_construct (h : Host) (b : bool) : palettes_ok (construct h b).
Proof.
  assert (P : palette_ok (map Some DEFAULT_ANSI_COLORS)).
  { split; [rewrite length_map; cbn; lia|]. intros i Hi. unfold js_get.
    replace (i <? 0) with false by (symmetry; apply Z.ltb_ge; lia).
    rewrite nth_error_map.
    destruct (nth_error DEFAULT_ANSI_COLORS (Z.to_nat i)) eqn:E; [discriminate|].
    apply nth_error_None in E. cbn in E. lia. }
  split; exact P.
Qed.

Lemma palettes_ok_step (o : Op) (s : State) : palettes_ok s -> palettes_ok (run_op o s).
Proof.
  intros [Pa Pr]. unfold run_op, op_method. destruct o as [th|slot|key v|bg fg x].
  - destruct (setTheme_spec th (ctx s) (allowTransparency s)) as (W & t & Ok & _ & H).
    destruct (H s eq_refl eq_refl) as (C & _ & _ & Ho).
    assert (Pw : palette_ok (ansi (colors (final (setTheme th s))))).
    { rewrite C, theme_colors_ansi. apply apply_writes_palette; assumption. }
    destruct (setTheme th s) as [s' u|s']; cbn [final] in *; split; try exact Pw.
    + destruct Ho as (_ & _ & ->). exact Pw.
    + destruct Ho as (_ & _ & ->). exact Pr.
  - unfold restoreColor. slot_cases slot; cbn; split; try assumption.
    + apply js_set_palette; [exact Pa|]. intro Hi. apply Pr. exact Hi.
    + apply restore_loop_palette; assumption.
  - unfold onOptionsChange.
    destruct (String.eqb key "minimumContrastRatio"); [|destruct (String.eqb key "allowTransparency")];
      split; assumption.
  - split; assumption.
Qed.

Lemma palettes_ok_reachable (s : State) : reachable s -> palettes_ok s.
Proof.
  induction 1 as [h b|o s _ IH]; [apply palettes_ok_construct | apply palettes_ok_step, IH].
Qed.

(** C3 (corrected): in every reachable state the palette [ansi] has at least
    256 entries, and each entry [0..255] is a defined colour. It can have
    more than 256: a [setTheme] with 241 [extendedAnsi] entries leaves 257. *)
Theorem palette_at_least_256 (s : State) :
  reachable s ->
  (256 <= List.length (ansi (colors s)))%nat /\
  forall i, 0 <= i < 256 -> js_get (ansi (colors s)) i <> None.
Proof. intro R. apply (palettes_ok_reachable s R). Qed.

Lemma palette_at_least_256_witness :
  let s := run_op (OpSetTheme (theme_extended ["#ff0000"])) (construct demo_host false) in
  (256 <= List.length (ansi (colors s)))%nat /\
  forall i, 0 <= i < 256 -> js_get (ansi (colors s)) i <> None.
Proof. apply palette_at_least_256. apply reachable_step, reachable_init. Defined.

(** A theme with 241 [extendedAnsi] entries leaves a palette of 257. *)
Lemma palette_257_cex :
  let s := run_op (OpSetTheme (theme_extended (repeat "#000000" 241))) (construct demo_host false) in
  reachable s /\ List.length (ansi (colors s)) = 257%nat.
Proof. split; [apply reachable_step, reachable_init | vm_compute; reflexivity]. Qed.

(* ------------------------------------------------------------------------- *)
(** ** The contrast cache *)

(** C1 (a defect of [restoreColor]): a [setTheme] call that returns leaves
    the contrast cache empty (line 177), and so does
    [onOptionsChange("minimumContrastRatio")]; [restoreColor], with or
    without a slot, changes colours but leaves the cache as it was. *)
Theorem cache_after_operations (s : State) :
  (forall th s', setTheme th s = Normal s' tt -> contrastCache s' = []) /\
  (forall v, contrastCache (run_op (OpOptionsChange "minimumContrastRatio" v) s) = []) /\
  (forall slot, contrastCache (run_op (OpRestoreColor slot) s) = contrastCache s).
Proof.
  split; [|split].
  - intros th s' E.
    destruct (setTheme_spec th (ctx s) (allowTransparency s)) as (W & t & _ & _ & H).
    destruct (H s eq_refl eq_refl) as (_ & _ & _ & Ho). rewrite E in Ho.
    destruct Ho as (_ & K & _). exact K.
  - intro v. reflexivity.
  - intro slot. unfold run_op, op_method, restoreColor. slot_cases slot; reflexivity.
Qed.

Lemma cache_after_operations_witness :
  let s := run_op (OpCacheStore 0x000000FF 0xFFFFFFFF (Some DEFAULT_FOREGROUND))
                  (construct demo_host false) in
  contrastCache (final (setTheme ITheme.empty s)) = [] /\
  contrastCache (run_op (OpRestoreColor None) s) = contrastCache s.
Proof.
  intro s. split.
  - destruct (setTheme ITheme.empty s) as [s' []|s'] eqn:E.
    + exact (proj1 (cache_after_operations s) ITheme.empty s' E).
    + assert (B : match setTheme ITheme.empty s with Thrown _ => true | _ => false end = false)
        by (vm_compute; reflexivity).
      rewrite E in B. discriminate.
  - exact (proj2 (proj2 (cache_after_operations s)) None).
Defined.

(** After the renderer stores an entry, [restoreColor()] leaves it there. *)
Lemma restoreColor_keeps_cache_cex :
  let s := run_op (OpCacheStore 0x000000FF 0xFFFFFFFF (Some DEFAULT_FOREGROUND))
                  (construct demo_host false) in
  reachable s /\ contrastCache (run_op (OpRestoreColor None) s) <> [].
Proof. split; [apply reachable_step, reachable_init | vm_compute; discriminate]. Qed.

(* ------------------------------------------------------------------------- *)
(** ** Restoring the palette *)

Lemma with_ansi_twice (x : ColorSet) (a b : JsArray) : with_ansi (with_ansi x a) b = with_ansi x b.
Proof. destruct x; reflexivity. Qed.

Lemma js_get_neg (a : JsArray) (j : Z) : j < 0 -> js_get a j = None.
Proof. intro H. unfold js_get. apply Z.ltb_lt in H. rewrite H. reflexivity. Qed.

Lemma restore_agrees_step (A : JsArray) (o : Op) (s : State) :
  is_setTheme o = false -> restore_agrees A s -> restore_agrees A (run_op o s).
Proof.
  intros Ho [Hr Hj]. unfold run_op, op_method.
  destruct o as [th|slot|key v|bg fg x]; [discriminate| | |].
  - unfold restoreColor, restore_agrees.
    slot_cases slot;
      cbn [final colors set_colors restoreColors ansi assign_ansi_at assign_foreground
           assign_background assign_cursor];
      split; try assumption.
    + intros j Lj. destruct (Z.ltb_spec i 0) as [Hn|Hn].
      * rewrite js_set_neg by exact Hn. apply Hj, Lj.
      * rewrite js_get_set by exact Hn. rewrite Hr.
        destruct (Z.eqb_spec j i); [subst; reflexivity | apply Hj, Lj].
    + intros j Lj. rewrite restore_loop_get by lia. rewrite Hr.
      destruct (Z.leb_spec 0 j), (Z.ltb_spec j (0 + Z.of_nat (List.length A))); cbn;
        try lia; apply Hj, Lj.
  - unfold onOptionsChange.
    destruct (String.eqb key "minimumContrastRatio"); [|destruct (String.eqb key "allowTransparency")];
      split; assumption.
  - split; assumption.
Qed.

Lemma restore_agrees_ops (A : JsArray) (os : list Op) (s : State) :
  forallb (fun o => negb (is_setTheme o)) os = true ->
  restore_agrees A s -> restore_agrees A (run_ops os s).
Proof.
  revert s; induction os as [|o os IH]; intros s Hos Hs; [exact Hs|].
  cbn [forallb] in Hos. apply andb_prop in Hos as [Ho Hos].
  unfold run_ops. cbn [fold_left]. apply IH; [exact Hos|].
  apply restore_agrees_step; [destruct (is_setTheme o); [discriminate | reflexivity] | exact Hs].
Qed.

(** C8 (holds after a [setTheme] that returns): let [s1] be a fresh manager
    or the state a [setTheme] call returned in, and let only calls other
    than [setTheme] follow; then [restoreColor()] gives every entry of
    [ansi] the value it had in [s1], and leaves the other fields of the
    colour set unchanged. A [setTheme] that throws takes no snapshot. *)
Theorem restoreColor_restores_snapshot (s1 : State) (os : list Op) :
  ((exists h b, s1 = construct h b) \/ (exists th s0, setTheme th s0 = Normal s1 tt)) ->
  forallb (fun o => negb (is_setTheme o)) os = true ->
  let s2 := run_ops os s1 in
  let s3 := run_op (OpRestoreColor None) s2 in
  (forall j, js_get (ansi (colors s3)) j = js_get (ansi (colors s1)) j) /\
  with_ansi (colors s3) (ansi (colors s2)) = colors s2.
Proof.
  intros Hs1 Hos. cbv zeta.
  assert (Hr : IRestoreColorSet.ansi (restoreColors s1) = ansi (colors s1)).
  { destruct Hs1 as [(h & b & ->)|(th & s0 & E)]; [reflexivity|].
    destruct (setTheme_spec th (ctx s0) (allowTransparency s0)) as (W & t & _ & _ & H).
    destruct (H s0 eq_refl eq_refl) as (_ & _ & _ & Ho). rewrite E in Ho.
    destruct Ho as (_ & _ & ->). reflexivity. }
  destruct (restore_agrees_ops (ansi (colors s1)) os s1 Hos (conj Hr (fun j _ => eq_refl)))
    as [Hr2 Hj2].
  unfold run_op, op_method, restoreColor. cbn [final colors set_colors].
  rewrite Hr2. split.
  - intro j. rewrite restore_loop_get by lia.
    destruct (Z.leb_spec 0 j), (Z.ltb_spec j (0 + Z.of_nat (List.length (ansi (colors s1))))); cbn;
      try reflexivity.
    + apply Hj2. lia.
    + rewrite !js_get_neg by lia. reflexivity.
    + rewrite !js_get_neg by lia. reflexivity.
  - rewrite restore_loop_fields, with_ansi_twice. apply with_ansi_self.
Qed.

Lemma restoreColor_restores_snapshot_witness :
  let s1 := construct demo_host false in
  let os := [OpRestoreColor (Some 3); OpOptionsChange "minimumContrastRatio" true] in
  let s2 := run_ops os s1 in
  let s3 := run_op (OpRestoreColor None) s2 in
  (forall j, js_get (ansi (colors s3)) j = js_get (ansi (colors s1)) j) /\
  with_ansi (colors s3) (ansi (colors s2)) = colors s2.
Proof.
  exact (restoreColor_restores_snapshot (construct demo_host false)
           [OpRestoreColor (Some 3); OpOptionsChange "minimumContrastRatio" true]
           (or_introl (ex_intro _ demo_host (ex_intro _ false eq_refl))) eq_refl).
Defined.

(** A [setTheme] whose 241st [extendedAnsi] entry is invalid throws at slot
    256 (its fallback [DEFAULT_ANSI_COLORS[256]] is undefined, and the
    warning at line 228 reads its [css]) after writing [#ff0000] into
    slots 16 to 255; [restoreColor()] then puts back the default of slot 16,
    not the value the palette held after that call. *)
Lemma restoreColor_after_throw_cex :
  let th := theme_extended (app (repeat "#ff0000" 240) ["bogus"]) in
  let s := run_op (OpSetTheme th) (construct demo_host false) in
  reachable s /\
  match setTheme th (construct demo_host false) with Thrown _ => true | _ => false end = true /\
  js_get (ansi (colors s)) 16 = Some red /\
  js_get (ansi (colors (run_op (OpRestoreColor None) s))) 16 = default_ansi 16 /\
  default_ansi 16 <> Some red.
Proof.
  split; [apply reachable_step, reachable_init|].
  split; [vm_compute; reflexivity|].
  split; [vm_compute; reflexivity|]. split; [vm_compute; reflexivity|].
  vm_compute. discriminate.
Qed.

(* ------------------------------------------------------------------------- *)
(** ** [setTheme({})] *)

(** C9 (against the code's documentation): [setTheme({})] resolves only the
    structural colours and [ansi[0..15]] against their defaults; every entry
    from 16 on keeps the value it had before the call. *)
Theorem setTheme_empty_keeps_extended (s : State) (j : Z) :
  16 <= j ->
  js_get (ansi (colors (run_op (OpSetTheme ITheme.empty) s))) j = js_get (ansi (colors s)) j.
Proof.
  intro Hj.
  destruct (setTheme_spec ITheme.empty (ctx s) (allowTransparency s)) as (W & t & Ok & I & H).
  destruct (H s eq_refl eq_refl) as (C & _).
  specialize (I eq_refl).
  unfold run_op, op_method. rewrite C, theme_colors_ansi.
  rewrite js_get_apply by (apply writes_ok_nonneg, Ok).
  destruct (last_write W j) as [x|] eqn:E; [|reflexivity].
  apply last_write_in in E. rewrite Forall_forall in I. specialize (I _ E). cbn in I. lia.
Qed.

Lemma setTheme_empty_keeps_extended_witness :
  let s := run_op (OpSetTheme (theme_extended ["#ff0000"])) (construct demo_host false) in
  js_get (ansi (colors (run_op (OpSetTheme ITheme.empty) s))) 16 = js_get (ansi (colors s)) 16.
Proof.
  exact (setTheme_empty_keeps_extended
           (run_op (OpSetTheme (theme_extended ["#ff0000"])) (construct demo_host false)) 16
           ltac:(lia)).
Defined.

(** After [setTheme({extendedAnsi: ["#ff0000"]})], [setTheme({})] leaves
    [ansi[16]] at [#ff0000], not at its default [#000000]. *)
Lemma setTheme_empty_after_extended :
  let s := run_op (OpSetTheme (theme_extended ["#ff0000"])) (construct demo_host false) in
  reachable s /\
  js_get (ansi (colors (run_op (OpSetTheme ITheme.empty) s))) 16 = Some red /\
  default_ansi 16 = Some {| css := "#000000"; rgba := 0x000000FF |}.
Proof.
  split; [apply reachable_step, reachable_init|].
  split; vm_compute; reflexivity.
Qed.

(* ------------------------------------------------------------------------- *)
(** ** Further properties of [setTheme], [restoreColor] and [_parseColor] *)

Lemma default_ansi_past (i : Z) : 256 <= i -> default_ansi i = None.
Proof.
  intro Hi. unfold default_ansi. replace (i <? 0) with false by (symmetry; apply Z.ltb_ge; lia).
  apply nth_error_None. change (List.length DEFAULT_ANSI_COLORS) with 256%nat. lia.
Qed.

(** A [setTheme] call throws iff an iteration of its [extendedAnsi] loop does. *)
Lemma setTheme_thrown_ext (th : ITheme.t) (s : State) :
  (exists s', setTheme th s = Thrown s') <-> ext_throws (ctx s) (allowTransparency s) th.
Proof.
  destruct (setTheme_spec_ext th (ctx s) (allowTransparency s)) as (W & t & _ & _ & _ & T & H).
  specialize (H s eq_refl eq_refl). unfold theme_post in H.
  enough (E : (exists s', setTheme th s = Thrown s') <-> t = true) by tauto.
  destruct (setTheme th s) as [s' u|s']; destruct H as (_ & _ & _ & Ht & _); subst t.
  - split; [intros (s'' & E); discriminate | discriminate].
  - split; [reflexivity | intros _; eauto].
Qed.

Lemma restore_loop_writes (i : Z) (n : nat) (src : JsArray) (dst : ColorSet) :
  restore_loop i n src dst = with_ansi dst (apply_writes (restore_writes i n src) (ansi dst)).
Proof.
  revert i dst; induction n as [|n IH]; intros i dst; cbn [restore_loop restore_writes].
  - symmetry. apply with_ansi_self.
  - rewrite IH. unfold apply_writes. cbn [fold_left fst snd]. destruct dst; reflexivity.
Qed.

Lemma restore_writes_nonneg (i : Z) (n : nat) (src : JsArray) :
  0 <= i -> nonneg_writes (restore_writes i n src).
Proof.
  revert i; induction n as [|n IH]; intros i Hi; cbn [restore_writes];
    [constructor | constructor; [cbn; lia | apply IH; lia]].
Qed.

Lemma ansi_with_ansi (x : ColorSet) (a : JsArray) : ansi (with_ansi x a) = a.
Proof. destruct x; reflexivity. Qed.

Lemma js_set_twice (a : JsArray) (i : Z) (x : option Color) :
  js_set (js_set a i x) i x = js_set a i x.
Proof.
  destruct (Z.ltb_spec i 0) as [Hn|Hn].
  - rewrite !js_set_neg by exact Hn. reflexivity.
  - change (apply_writes [(i, x)] (apply_writes [(i, x)] a) = apply_writes [(i, x)] a).
    apply apply_writes_idem. repeat constructor. cbn. exact Hn.
Qed.

(** Writing an entry's own value back changes no entry. *)
Lemma js_set_get_self (a : JsArray) (i j : Z) : js_get (js_set a i (js_get a i)) j = js_get a j.
Proof.
  destruct (Z.ltb_spec i 0) as [Hn|Hn].
  - rewrite js_set_neg by exact Hn. reflexivity.
  - rewrite js_get_set by exact Hn. destruct (Z.eqb_spec j i); [subst; reflexivity | reflexivity].
Qed.

Lemma reach_le (W : list (Z * option Color)) (n k : nat) :
  (n <= k)%nat -> Forall (fun w => 0 <= fst w < Z.of_nat k) W -> (reach W n <= k)%nat.
Proof.
  unfold reach. revert n. induction W as [|w W IH]; intros n Hn HW; cbn [fold_left]; [exact Hn|].
  inversion HW as [|? ? Hw HW']; subst. apply IH; [lia | exact HW'].
Qed.

Lemma theme_colors_with_ansi (h : Host) (at_ : bool) (th : ITheme.t) (a b : JsArray) :
  with_ansi (theme_colors h at_ th a) b = theme_colors h at_ th b.
Proof. reflexivity. Qed.

Lemma theme_colors_sf (h : Host) (at_ : bool) (th : ITheme.t) (a : JsArray) :
  selectionForeground (theme_colors h at_ th a) =
  match ITheme.selectionForeground th with
  | Some str =>
      if String.eqb str "" then None
      else match parseColor h (Some str) (Some nullColor) at_ with
           | Ok (Parsed c) _ => Some c
           | _ => None
           end
  | None => None
  end.
Proof. reflexivity. Qed.

(** A [setTheme] call that returns sets [ansi[j]] to the value its loops
    assign there, and leaves the entries they do not assign unchanged. *)
Theorem setTheme_palette (th : ITheme.t) (s s' : State) (j : Z) :
  setTheme th s = Normal s' tt ->
  js_get (ansi (colors s')) j =
  match theme_entry (ctx s) (allowTransparency s) th j with
  | Some x => x
  | None => js_get (ansi (colors s)) j
  end.
Proof.
  intro E.
  destruct (setTheme_spec_ext th (ctx s) (allowTransparency s)) as (W & t & Ok & _ & X & _ & H).
  specialize (H s eq_refl eq_refl). rewrite E in H. destruct H as (C & _ & _ & Ht & _).
  cbn [final] in C. rewrite C, theme_colors_ansi, js_get_apply by (apply writes_ok_nonneg, Ok).
  rewrite (X Ht j). reflexivity.
Qed.

Lemma setTheme_palette_witness :
  exists s', setTheme (theme_extended ["#ff0000"]) (construct demo_host false) = Normal s' tt /\
             js_get (ansi (colors s')) 16 = Some red.
Proof.
  destruct (setTheme (theme_extended ["#ff0000"]) (construct demo_host false)) as [s' []|s'] eqn:E.
  - exists s'. split; [reflexivity|].
    rewrite (setTheme_palette (theme_extended ["#ff0000"]) (construct demo_host false) s' 16 E).
    vm_compute. reflexivity.
  - assert (B : match setTheme (theme_extended ["#ff0000"]) (construct demo_host false)
                with Thrown _ => true | _ => false end = false) by (vm_compute; reflexivity).
    rewrite E in B. discriminate.
Defined.

(** [setTheme theme] throws exactly when [theme.extendedAnsi] has an entry at
    a position [k >= 240] (palette index [16 + k >= 256], where
    [DEFAULT_ANSI_COLORS] gives the fallback [undefined]) that [_parseColor]
    rejects. *)
Theorem setTheme_throws_iff (th : ITheme.t) (s : State) :
  (exists s', setTheme th s = Thrown s') <->
  match ITheme.extendedAnsi th with
  | Some e => exists k, (240 <= k < List.length e)%nat /\
                parseColor (ctx s) (nth_error e k) None (allowTransparency s) = TypeError
  | None => False
  end.
Proof.
  rewrite setTheme_thrown_ext. unfold ext_throws, throws_at.
  destruct (ITheme.extendedAnsi th) as [e|]; [|tauto].
  split.
  - intros (i & Hi & Ht).
    destruct (Z.ltb_spec i 256) as [Hl|Hl].
    + destruct (default_ansi_defined i ltac:(lia)) as [d Hd]. rewrite Hd in Ht.
      destruct (parseColor_defined (ctx s) (nth_error e (Z.to_nat (i - 16))) d
                  (allowTransparency s)) as (p & l & E).
      rewrite E in Ht. discriminate.
    + exists (Z.to_nat (i - 16)). split; [lia|].
      rewrite default_ansi_past in Ht by lia.
      destruct (parseColor (ctx s) (nth_error e (Z.to_nat (i - 16))) None (allowTransparency s));
        [discriminate | reflexivity].
  - intros (k & Hk & E). exists (16 + Z.of_nat k). split; [lia|].
    replace (Z.to_nat (16 + Z.of_nat k - 16)) with k by lia.
    rewrite default_ansi_past by lia. rewrite E. reflexivity.
Qed.

(** Calling [restoreColor(slot)] twice in a row is calling it once. *)
Theorem restoreColor_idempotent (slot : option ColorIndex) (s : State) :
  run_op (OpRestoreColor slot) (run_op (OpRestoreColor slot) s) = run_op (OpRestoreColor slot) s.
Proof.
  unfold run_op, op_method, restoreColor.
  slot_cases slot; cbn [final]; unfold set_colors;
    cbn [colors restoreColors ctx allowTransparency contrastCache console]; f_equal;
    destruct (colors s) as [fg bg cu ca st so sf a].
  all: try reflexivity.
  - unfold assign_ansi_at. cbn [ansi]. rewrite js_set_twice. reflexivity.
  - rewrite !restore_loop_writes, ansi_with_ansi, with_ansi_twice.
    rewrite apply_writes_idem by (apply restore_writes_nonneg; lia). reflexivity.
Qed.

(** [restoreColor(i)] for a slot [i] other than the three [ColorIndex]
    members (the [default] branch) sets [ansi[i]] to the snapshot's entry
    when [i >= 0] and changes no entry when [i < 0]; the other fields of the
    colour set, the snapshot and the cache are unchanged. *)
Theorem restoreColor_index_frame (s : State) (i j : Z) :
  i <> FOREGROUND -> i <> BACKGROUND -> i <> CURSOR ->
  let s' := run_op (OpRestoreColor (Some i)) s in
  js_get (ansi (colors s')) j =
    (if (0 <=? i) && (i =? j) then js_get (IRestoreColorSet.ansi (restoreColors s)) i
     else js_get (ansi (colors s)) j) /\
  with_ansi (colors s') (ansi (colors s)) = colors s /\
  restoreColors s' = restoreColors s /\ contrastCache s' = contrastCache s.
Proof.
  intros Hf Hb Hc. cbv zeta. unfold run_op, op_method, restoreColor.
  rewrite (proj2 (Z.eqb_neq _ _) Hf), (proj2 (Z.eqb_neq _ _) Hb), (proj2 (Z.eqb_neq _ _) Hc).
  cbn [final set_colors colors restoreColors contrastCache assign_ansi_at ansi].
  split; [|split; [destruct (colors s); reflexivity | split; reflexivity]].
  destruct (Z.ltb_spec i 0) as [Hn|Hn].
  - rewrite js_set_neg by exact Hn. replace (0 <=? i) with false by (symmetry; apply Z.leb_gt; lia).
    reflexivity.
  - rewrite js_get_set by exact Hn. replace (0 <=? i) with true by (symmetry; apply Z.leb_le; lia).
    cbn [andb]. rewrite Z.eqb_sym. destruct (Z.eqb_spec i j); [subst; reflexivity | reflexivity].
Qed.

Lemma restoreColor_index_frame_witness :
  js_get (ansi (colors (run_op (OpRestoreColor (Some 300)) (construct demo_host false)))) 300 =
    js_get (IRestoreColorSet.ansi (restoreColors (construct demo_host false))) 300.
Proof.
  destruct (restoreColor_index_frame (construct demo_host false) 300 300
              ltac:(discriminate) ltac:(discriminate) ltac:(discriminate)) as [H _].
  exact H.
Defined.


(** [restoreColor()] copies the snapshot's entries [0 .. length - 1] into
    [ansi] and leaves the entries past the snapshot's length, the
    foreground, background, cursor and the other fields unchanged. *)
Theorem restoreColor_all_frame (s : State) (j : Z) :
  let A := IRestoreColorSet.ansi (restoreColors s) in
  let s' := run_op (OpRestoreColor None) s in
  js_get (ansi (colors s')) j =
    (if (0 <=? j) && (j <? Z.of_nat (List.length A)) then js_get A j
     else js_get (ansi (colors s)) j) /\
  with_ansi (colors s') (ansi (colors s)) = colors s /\
  restoreColors s' = restoreColors s /\ contrastCache s' = contrastCache s.
Proof.
  cbv zeta. unfold run_op, op_method, restoreColor.
  cbn [final set_colors colors restoreColors contrastCache].
  split; [|split; [|split; reflexivity]].
  - rewrite restore_loop_get by lia. reflexivity.
  - rewrite restore_loop_fields, with_ansi_twice. apply with_ansi_self.
Qed.

(** When the snapshot is the current colour set, [restoreColor] changes no
    colour. *)
Lemma restore_noop (s : State) (slot : option ColorIndex) (j : Z) :
  restoreColors s = snapshot_of (colors s) ->
  js_get (ansi (colors (run_op (OpRestoreColor slot) s))) j = js_get (ansi (colors s)) j /\
  with_ansi (colors (run_op (OpRestoreColor slot) s)) (ansi (colors s)) = colors s.
Proof.
  intro Hr. unfold run_op, op_method, restoreColor. rewrite Hr.
  slot_cases slot; cbn [final set_colors colors];
    destruct (colors s) as [fg bg cu ca st so sf a];
    cbn [snapshot_of IRestoreColorSet.foreground IRestoreColorSet.background IRestoreColorSet.cursor
         IRestoreColorSet.ansi assign_foreground assign_background assign_cursor assign_ansi_at ansi].
  - split; reflexivity.
  - split; reflexivity.
  - split; reflexivity.
  - split; [apply js_set_get_self | reflexivity].
  - split.
    + rewrite restore_loop_get by lia. cbn [ansi].
      destruct ((0 <=? j) && (j <? 0 + Z.of_nat (List.length a))); reflexivity.
    + rewrite restore_loop_fields, with_ansi_twice. apply with_ansi_self.
Qed.

(** Right after a [setTheme] call that returns, [restoreColor(slot)] changes
    no colour, whatever the slot. *)
Theorem restoreColor_after_setTheme (th : ITheme.t) (s s1 : State) (slot : option ColorIndex)
    (j : Z) :
  setTheme th s = Normal s1 tt ->
  js_get (ansi (colors (run_op (OpRestoreColor slot) s1))) j = js_get (ansi (colors s1)) j /\
  with_ansi (colors (run_op (OpRestoreColor slot) s1)) (ansi (colors s1)) = colors s1.
Proof.
  intro E. apply restore_noop.
  destruct (setTheme_spec_ext th (ctx s) (allowTransparency s)) as (W & t & _ & _ & _ & _ & H).
  specialize (H s eq_refl eq_refl). rewrite E in H. destruct H as (_ & _ & _ & _ & _ & R).
  exact R.
Qed.

Lemma restoreColor_after_setTheme_witness :
  exists s1, setTheme (theme_extended ["#ff0000"]) (construct demo_host false) = Normal s1 tt /\
    js_get (ansi (colors (run_op (OpRestoreColor None) s1))) 16 = js_get (ansi (colors s1)) 16.
Proof.
  destruct (setTheme (theme_extended ["#ff0000"]) (construct demo_host false)) as [s1 []|s1] eqn:E.
  - exists s1. split; [reflexivity|].
    exact (proj1 (restoreColor_after_setTheme (theme_extended ["#ff0000"])
                    (construct demo_host false) s1 None 16 E)).
  - assert (B : match setTheme (theme_extended ["#ff0000"]) (construct demo_host false)
                with Thrown _ => true | _ => false end = false) by (vm_compute; reflexivity).
    rewrite E in B. discriminate.
Defined.

(** A colour [_parseColor] accepts with transparency disallowed, it accepts
    the same with transparency allowed. *)
Theorem parseColor_allow_monotone (h : Host) (x : option string) (fb : option Color) (c : Color)
    (l : list string) :
  parseColor h x fb false = Ok (Parsed c) l -> parseColor h x fb true = Ok (Parsed c) l.
Proof.
  unfold parseColor, warn_with. destruct x as [str|]; [|discriminate].
  destruct (fill_style h str) as [fs|]; [|destruct fb; discriminate].
  cbn zeta. destruct (negb (px_a (image_data h fs) =? 255)); cbn [negb].
  - destruct fb; discriminate.
  - intro E; exact E.
Qed.

Lemma parseColor_allow_monotone_witness :
  parseColor demo_host (Some "#FF0000") (Some DEFAULT_FOREGROUND) false = Ok (Parsed red) [] /\
  parseColor demo_host (Some "#FF0000") (Some DEFAULT_FOREGROUND) true = Ok (Parsed red) [].
Proof.
  assert (E : parseColor demo_host (Some "#FF0000") (Some DEFAULT_FOREGROUND) false
              = Ok (Parsed red) []) by (vm_compute; reflexivity).
  split; [exact E | exact (parseColor_allow_monotone _ _ _ _ _ E)].
Defined.

(** A colour [_parseColor] accepts does not depend on the fallback. *)
Theorem parseColor_parsed_fallback (h : Host) (x : option string) (fb1 fb2 : option Color)
    (at_ : bool) (c : Color) (l : list string) :
  parseColor h x fb1 at_ = Ok (Parsed c) l -> parseColor h x fb2 at_ = Ok (Parsed c) l.
Proof.
  unfold parseColor, warn_with. destruct x as [str|]; [|discriminate].
  destruct (fill_style h str) as [fs|]; [|destruct fb1; discriminate].
  cbn zeta. destruct (negb (px_a (image_data h fs) =? 255)), at_; cbn [negb];
    try (destruct fb1; discriminate); intro E; exact E.
Qed.

Lemma parseColor_parsed_fallback_witness :
  parseColor demo_host (Some "#FF0000") (Some DEFAULT_FOREGROUND) false = Ok (Parsed red) [] /\
  parseColor demo_host (Some "#FF0000") None false = Ok (Parsed red) [].
Proof.
  assert (E : parseColor demo_host (Some "#FF0000") (Some DEFAULT_FOREGROUND) false
              = Ok (Parsed red) []) by (vm_compute; reflexivity).
  split; [exact E | exact (parseColor_parsed_fallback _ _ _ None _ _ _ E)].
Defined.

(** On a given input, [_parseColor] returns the fallback exactly when it
    prints a warning, and then it prints one line. *)
Theorem parseColor_warns_iff_fallback (h : Host) (str : string) (fb : option Color) (at_ : bool)
    (p : ParseOut) (l : list string) :
  parseColor h (Some str) fb at_ = Ok p l ->
  (p = Fallback <-> l <> []) /\ (List.length l <= 1)%nat.
Proof.
  unfold parseColor, warn_with.
  destruct (fill_style h str) as [fs|].
  - cbn zeta. destruct (negb (px_a (image_data h fs) =? 255)), at_; cbn [negb];
      try destruct fb; intro E; try discriminate; injection E as <- <-;
      (split; [split; [discriminate | intro N; contradiction N; reflexivity] | cbn; lia])
      || (split; [split; [discriminate | reflexivity] | cbn; lia]).
  - destruct fb; intro E; [|discriminate]. injection E as <- <-.
    split; [split; [discriminate | reflexivity] | cbn; lia].
Qed.

Lemma parseColor_warns_iff_fallback_witness :
  parseColor demo_host (Some "nope") (Some DEFAULT_FOREGROUND) false
    = Ok Fallback ["Color: nope is invalid using fallback #ffffff"] /\
  (Fallback = Fallback <-> ["Color: nope is invalid using fallback #ffffff"] <> []) /\
  (List.length ["Color: nope is invalid using fallback #ffffff"] <= 1)%nat.
Proof.
  assert (E : parseColor demo_host (Some "nope") (Some DEFAULT_FOREGROUND) false
              = Ok Fallback ["Color: nope is invalid using fallback #ffffff"])
    by (vm_compute; reflexivity).
  split; [exact E | exact (parseColor_warns_iff_fallback _ _ _ _ _ _ E)].
Defined.

(** After [setTheme theme], [selectionForeground] is a colour [c] exactly
    when [theme.selectionForeground] is a non-empty string that
    [_parseColor] accepts as [c]; otherwise it is [undefined] (the
    [nullColor] sentinel never stays in the field). *)
Theorem setTheme_selectionForeground (th : ITheme.t) (s : State) (c : Color) :
  selectionForeground (colors (run_op (OpSetTheme th) s)) = Some c <->
  exists str l, ITheme.selectionForeground th = Some str /\ str <> "" /\
    parseColor (ctx s) (Some str) (Some nullColor) (allowTransparency s) = Ok (Parsed c) l.
Proof.
  destruct (setTheme_spec th (ctx s) (allowTransparency s)) as (W & t & _ & _ & H).
  destruct (H s eq_refl eq_refl) as (C & _).
  unfold run_op, op_method. rewrite C, theme_colors_sf.
  destruct (ITheme.selectionForeground th) as [str|].
  - destruct (String.eqb_spec str "") as [->|Ne].
    + split; [discriminate|]. intros (str' & l & E & N & _). injection E as E. subst.
      destruct (N eq_refl).
    + destruct (parseColor (ctx s) (Some str) (Some nullColor) (allowTransparency s))
        as [[|c'] l|] eqn:E.
      * split; [discriminate|]. intros (str' & l' & E' & _ & P). injection E' as E'. subst.
        congruence.
      * split.
        -- intro Hc. injection Hc as <-. exists str, l. auto.
        -- intros (str' & l' & E' & _ & P). injection E' as E'. subst. congruence.
      * split; [discriminate|]. intros (str' & l' & E' & _ & P). injection E' as E'. subst.
        congruence.
  - split; [discriminate|]. intros (str' & l & E & _). discriminate.
Qed.

(** The colours [setTheme theme] leaves outside the palette depend only on
    the theme, the canvas and [allowTransparency], not on the colours
    before the call (also when the call throws). *)
Theorem setTheme_overwrites_colors (th : ITheme.t) (s1 s2 : State) :
  ctx s1 = ctx s2 -> allowTransparency s1 = allowTransparency s2 ->
  with_ansi (colors (run_op (OpSetTheme th) s1)) [] =
  with_ansi (colors (run_op (OpSetTheme th) s2)) [].
Proof.
  intros Hc Ha.
  destruct (setTheme_spec th (ctx s1) (allowTransparency s1)) as (W & t & _ & _ & H).
  destruct (H s1 eq_refl eq_refl) as (C1 & _).
  destruct (H s2 (eq_sym Hc) (eq_sym Ha)) as (C2 & _).
  unfold run_op, op_method. rewrite C1, C2, !theme_colors_with_ansi. reflexivity.
Qed.

Lemma setTheme_overwrites_colors_witness :
  let s1 := construct demo_host false in
  let s2 := set_colors (assign_foreground red initial_colors) (construct demo_host false) in
  ctx s1 = ctx s2 /\ allowTransparency s1 = allowTransparency s2 /\
  with_ansi (colors (run_op (OpSetTheme (theme_selection "#FFFFFF")) s1)) [] =
  with_ansi (colors (run_op (OpSetTheme (theme_selection "#FFFFFF")) s2)) [].
Proof.
  split; [reflexivity|]. split; [reflexivity|].
  exact (setTheme_overwrites_colors (theme_selection "#FFFFFF") (construct demo_host false)
           (set_colors (assign_foreground red initial_colors) (construct demo_host false))
           eq_refl eq_refl).
Defined.

(** On a fresh manager, [setTheme({})] (the default argument) leaves the
    palette, the foreground, background, cursor, cursor accent, opaque
    selection and selection foreground as the constructor set them. *)
Theorem setTheme_empty_fresh (h : Host) (b : bool) :
  let s := construct h b in
  let x := colors (run_op (OpSetTheme ITheme.empty) s) in
  ansi x = ansi (colors s) /\ foreground x = foreground (colors s) /\
  background x = background (colors s) /\ cursor x = cursor (colors s) /\
  cursorAccent x = cursorAccent (colors s) /\ selectionOpaque x = selectionOpaque (colors s) /\
  selectionForeground x = selectionForeground (colors s).
Proof.
  cbv zeta.
  destruct (setTheme_spec_ext ITheme.empty h b) as (W & t & Ok & I & X & T & H).
  assert (Ht : t = false) by (destruct t; [exfalso; exact (proj1 T eq_refl) | reflexivity]).
  destruct (H (construct h b) eq_refl eq_refl) as (C & _).
  unfold run_op, op_method. rewrite C.
  change (colors (construct h b)) with initial_colors.
  split; [|repeat split].
  rewrite theme_colors_ansi. pose proof (writes_ok_nonneg W Ok) as HN.
  apply js_array_ext.
  - rewrite length_apply by exact HN. rewrite reach_max.
    assert (B : Forall (fun w => 0 <= fst w < Z.of_nat 16) W).
    { specialize (I eq_refl). unfold nonneg_writes in HN. rewrite Forall_forall in *. intros w Hw.
      specialize (I w Hw). specialize (HN w Hw). lia. }
    pose proof (reach_le W 0 16 ltac:(lia) B).
    cbn [ansi initial_colors]. rewrite length_map.
    change (List.length DEFAULT_ANSI_COLORS) with 256%nat. lia.
  - intros j Hj. rewrite js_get_apply by exact HN. rewrite (X Ht j). unfold theme_entry.
    destruct ((0 <=? j) && (j <? 16)); [|reflexivity].
    change (ITheme.base16 ITheme.empty) with (repeat (@None string) 16). rewrite nth_repeat.
    unfold resolved_entry, js_get, default_ansi. cbn [parseColor value_of ansi initial_colors].
    replace (j <? 0) with false by (symmetry; apply Z.ltb_ge; lia).
    rewrite nth_error_map. destruct (nth_error DEFAULT_ANSI_COLORS (Z.to_nat j)); reflexivity.
Qed.

(** [cursor], [cursorAccent] and [selectionTransparent] after [setTheme]
    do not depend on [allowTransparency]: they are parsed with
    transparency allowed. *)
Theorem setTheme_cursor_ignores_flag (th : ITheme.t) (s : State) (b : bool) :
  let x := colors (run_op (OpSetTheme th) s) in
  let y := colors (run_op (OpSetTheme th) (set_allowTransparency b s)) in
  cursor x = cursor y /\ cursorAccent x = cursorAccent y /\
  selectionTransparent x = selectionTransparent y.
Proof.
  cbv zeta.
  destruct (setTheme_spec th (ctx s) (allowTransparency s)) as (W1 & t1 & _ & _ & H1).
  destruct (setTheme_spec th (ctx s) b) as (W2 & t2 & _ & _ & H2).
  destruct (H1 s eq_refl eq_refl) as (C1 & _).
  destruct (H2 (set_allowTransparency b s) eq_refl eq_refl) as (C2 & _).
  unfold run_op, op_method. rewrite C1, C2.
  split; [|split]; reflexivity.
Qed.

(** In every reachable state, [restoreColor()] sets each of the entries
    [0 .. 255] of [ansi] to the snapshot's entry, which is a colour. *)
Theorem restoreColor_all_reachable (s : State) (j : Z) :
  reachable s -> 0 <= j < 256 ->
  js_get (ansi (colors (run_op (OpRestoreColor None) s))) j =
    js_get (IRestoreColorSet.ansi (restoreColors s)) j /\
  js_get (IRestoreColorSet.ansi (restoreColors s)) j <> None.
Proof.
  intros R Hj. destruct (palettes_ok_reachable s R) as [_ [L D]].
  split; [|apply D, Hj].
  unfold run_op, op_method, restoreColor. cbn [final set_colors colors].
  rewrite restore_loop_get by lia.
  replace ((0 <=? j) && (j <? 0 + Z.of_nat (List.length (IRestoreColorSet.ansi (restoreColors s)))))
    with true by (symmetry; apply andb_true_iff; split; [apply Z.leb_le | apply Z.ltb_lt]; lia).
  reflexivity.
Qed.

Lemma restoreColor_all_reachable_witness :
  reachable (construct demo_host false) /\ 0 <= 0 < 256 /\
  js_get (ansi (colors (run_op (OpRestoreColor None) (construct demo_host false)))) 0 =
    js_get (IRestoreColorSet.ansi (restoreColors (construct demo_host false))) 0.
Proof.
  split; [apply reachable_init|]. split; [lia|].
  exact (proj1 (restoreColor_all_reachable (construct demo_host false) 0
                  (reachable_init demo_host false) ltac:(lia))).
Defined.

(** On a fresh manager, [restoreColor(slot)] changes no colour, whatever
    the slot. *)
Theorem restoreColor_fresh (h : Host) (b : bool) (slot : option ColorIndex) (j : Z) :
  let s := construct h b in
  js_get (ansi (colors (run_op (OpRestoreColor slot) s))) j = js_get (ansi (colors s)) j /\
  with_ansi (colors (run_op (OpRestoreColor slot) s)) (ansi (colors s)) = colors s.
Proof. intro s. apply restore_noop. reflexivity. Qed.
